(** * PaymentPage: the amount and tip logic of the payment page

    A shallow embedding of the state and the event handlers of the
    [PaymentPage] React component (base amount, preset tip, custom tip),
    together with the ECMAScript built-ins they call: [String.prototype.replace]
    with [/[^0-9.]/g], [RegExp.prototype.test] with [/^\d*\.?\d{0,2}$/],
    [parseFloat], [isNaN], [Number.prototype.toFixed] and the relational and
    arithmetic operators on Numbers.

    Numbers.  A JavaScript Number is an IEEE-754 double.  Here a Number is
    [NaN], one of the two infinities, or an exact rational: binary rounding
    and overflow are abstracted away, and so is the sign of zero (no
    operation of the component distinguishes [-0] from [0]).  For the same
    reason [toFixed] always prints fixed-point digits: the switch of the
    real [toFixed] to exponential notation at magnitudes of 10^21 and above
    is outside the model.

    Strings.  A JavaScript string is a sequence of UTF-16 code units; here
    it is a [string] of 8-bit characters, which covers every character the
    handlers inspect (digits, [.], [$], sign, exponent marker, white space). *)

From Stdlib Require Import ZArith NArith QArith Qcanon Qround Qabs.
From Stdlib Require Import String Ascii Bool List Lia Lqa.
Import ListNotations.

Open Scope string_scope.

(** ** ECMAScript built-ins *)

Module JS.

(** *** Numbers *)

Inductive number : Type :=
  | NaN : number
  | PInf : number
  | NInf : number
  | Fin (q : Qc) : number.

Definition of_Z (z : Z) : number := Fin (Q2Qc (inject_Z z)).

Definition Qc_ltb (a b : Qc) : bool :=
  match Qccompare a b with Lt => true | _ => false end.

Definition Qc_eqb (a b : Qc) : bool :=
  match Qccompare a b with Eq => true | _ => false end.

(** [isNaN(x)] *)
Definition isNaN (x : number) : bool :=
  match x with NaN => true | _ => false end.

Definition isFinite (x : number) : bool :=
  match x with Fin _ => true | _ => false end.

(** [x < y]: false as soon as one side is [NaN]. *)
Definition lt (x y : number) : bool :=
  match x, y with
  | NaN, _ | _, NaN => false
  | _, NInf => false
  | NInf, _ => true
  | PInf, _ => false
  | Fin _, PInf => true
  | Fin a, Fin b => Qc_ltb a b
  end.

(** [x >= y]: false as soon as one side is [NaN], otherwise not [x < y]. *)
Definition ge (x y : number) : bool :=
  match x, y with
  | NaN, _ | _, NaN => false
  | _, _ => negb (lt x y)
  end.

(** [x === y] on Numbers. *)
Definition strict_eq (x y : number) : bool :=
  match x, y with
  | PInf, PInf | NInf, NInf => true
  | Fin a, Fin b => Qc_eqb a b
  | _, _ => false
  end.

Definition Qc_sign_neg (a : Qc) : bool := Qc_ltb a (Q2Qc 0).
Definition Qc_is_zero (a : Qc) : bool := Qc_eqb a (Q2Qc 0).

Definition inf (negative : bool) : number := if negative then NInf else PInf.

(** [x * y] *)
Definition mul (x y : number) : number :=
  match x, y with
  | NaN, _ | _, NaN => NaN
  | Fin a, Fin b => Fin (a * b)%Qc
  | Fin a, PInf | PInf, Fin a =>
      if Qc_is_zero a then NaN else inf (Qc_sign_neg a)
  | Fin a, NInf | NInf, Fin a =>
      if Qc_is_zero a then NaN else inf (negb (Qc_sign_neg a))
  | PInf, PInf | NInf, NInf => PInf
  | PInf, NInf | NInf, PInf => NInf
  end.

(** [x / y]; a zero divisor is the positive zero. *)
Definition div (x y : number) : number :=
  match x, y with
  | NaN, _ | _, NaN => NaN
  | Fin a, Fin b =>
      if Qc_is_zero b
      then (if Qc_is_zero a then NaN else inf (Qc_sign_neg a))
      else Fin (a / b)%Qc
  | Fin _, PInf | Fin _, NInf => Fin (Q2Qc 0)
  | PInf, Fin b => inf (Qc_sign_neg b)
  | NInf, Fin b => inf (negb (Qc_sign_neg b))
  | _, _ => NaN
  end.

(** [x + y] *)
Definition add (x y : number) : number :=
  match x, y with
  | NaN, _ | _, NaN => NaN
  | Fin a, Fin b => Fin (a + b)%Qc
  | PInf, NInf | NInf, PInf => NaN
  | PInf, _ | _, PInf => PInf
  | NInf, _ | _, NInf => NInf
  end.

(** *** Characters and digit strings *)

Definition code (c : ascii) : N := N_of_ascii c.

(** [\d] and the class [0-9] *)
Definition isDigit (c : ascii) : bool :=
  ((48 <=? code c) && (code c <=? 57))%N.

Definition isDot (c : ascii) : bool := (code c =? 46)%N.

Definition digitValue (c : ascii) : Z := Z.of_N (code c) - 48.

Definition digitChar (d : Z) : ascii := ascii_of_N (Z.to_N (48 + d)).

(** StrWhiteSpaceChar, restricted to the code units below 256:
    TAB, LF, VT, FF, CR, SP and NBSP. *)
Definition isWhiteSpace (c : ascii) : bool :=
  (((9 <=? code c) && (code c <=? 13)) || (code c =? 32) || (code c =? 160))%N.

(** The value of a string of decimal digits, most significant first. *)
Fixpoint digitsValue (acc : Z) (s : string) : Z :=
  match s with
  | EmptyString => acc
  | String c r => digitsValue (10 * acc + digitValue c) r
  end.

(** The decimal digits of [n >= 0], most significant first; [fuel] bounds
    the number of digits. *)
Fixpoint digitsOf (fuel : nat) (n : Z) : string :=
  match fuel with
  | O => EmptyString
  | S f =>
      if (n <? 10)%Z then String (digitChar n) EmptyString
      else digitsOf f (n / 10) ++ String (digitChar (n mod 10)) EmptyString
  end.

(** "The String representation of n consisting of decimal digits
    (or "0" if n is zero)". *)
Definition decimalString (n : Z) : string :=
  digitsOf (S (Z.to_nat (Z.log2 n))) n.

Fixpoint zeros (k : nat) : string :=
  match k with
  | O => EmptyString
  | S k' => String "0" (zeros k')
  end.

(** *** Regular expressions

    The pattern the component tests uses character classes, concatenation,
    [*], [?] and a bounded repetition, between the anchors [^] and [$] and
    without flags: [test] decides whether the whole string belongs to the
    language of the pattern.  Membership is decided by Brzozowski
    derivatives. *)

Inductive regex : Type :=
  | Void : regex
  | Eps : regex
  | Class (p : ascii -> bool) : regex
  | Seq (r1 r2 : regex) : regex
  | Alt (r1 r2 : regex) : regex
  | Star (r : regex) : regex.

(** [r?] *)
Definition Opt (r : regex) : regex := Alt r Eps.

(** [r{0,n}] *)
Fixpoint UpTo (n : nat) (r : regex) : regex :=
  match n with
  | O => Eps
  | S k => Opt (Seq r (UpTo k r))
  end.

Fixpoint nullable (r : regex) : bool :=
  match r with
  | Void => false
  | Eps => true
  | Class _ => false
  | Seq r1 r2 => nullable r1 && nullable r2
  | Alt r1 r2 => nullable r1 || nullable r2
  | Star _ => true
  end.

Fixpoint deriv (c : ascii) (r : regex) : regex :=
  match r with
  | Void => Void
  | Eps => Void
  | Class p => if p c then Eps else Void
  | Seq r1 r2 =>
      if nullable r1
      then Alt (Seq (deriv c r1) r2) (deriv c r2)
      else Seq (deriv c r1) r2
  | Alt r1 r2 => Alt (deriv c r1) (deriv c r2)
  | Star r1 => Seq (deriv c r1) (Star r1)
  end.

(** [/^r$/.test(s)] *)
Fixpoint test (r : regex) (s : string) : bool :=
  match s with
  | EmptyString => nullable r
  | String c s' => test (deriv c r) s'
  end.

(** [s.replace(/[cls]/g, '')]: every character of the class is removed. *)
Fixpoint removeAll (cls : ascii -> bool) (s : string) : string :=
  match s with
  | EmptyString => EmptyString
  | String c r => if cls c then removeAll cls r else String c (removeAll cls r)
  end.

(** *** parseFloat *)

Fixpoint trimStart (s : string) : string :=
  match s with
  | EmptyString => EmptyString
  | String c r => if isWhiteSpace c then trimStart r else s
  end.

(** The longest prefix of decimal digits, and what follows it. *)
Fixpoint spanDigits (s : string) : string * string :=
  match s with
  | EmptyString => (EmptyString, EmptyString)
  | String c r =>
      if isDigit c
      then let (d, t) := spanDigits r in (String c d, t)
      else (EmptyString, s)
  end.

Definition isEmpty (s : string) : bool :=
  match s with EmptyString => true | _ => false end.

Definition isPlus (c : ascii) : bool := (code c =? 43)%N.
Definition isMinus (c : ascii) : bool := (code c =? 45)%N.

(** [e] or [E] *)
Definition isExponentIndicator (c : ascii) : bool :=
  ((code c =? 101) || (code c =? 69))%N.

(** The digits of a SignedInteger at the head of [s], with its sign. *)
Definition signedDigits (s : string) : bool * string :=
  match s with
  | String c u =>
      if isPlus c then (false, fst (spanDigits u))
      else if isMinus c then (true, fst (spanDigits u))
      else (false, fst (spanDigits s))
  | EmptyString => (false, EmptyString)
  end.

(** ExponentPart, when one is complete at the head of [s]: [e] or [E], an
    optional sign and at least one digit.  An incomplete one is not part of
    the literal and counts for nothing. *)
Definition exponentPart (s : string) : Z :=
  match s with
  | String c r =>
      if isExponentIndicator c then
        let (negative, d) := signedDigits r in
        if isEmpty d then 0%Z
        else if negative then (- digitsValue 0 d)%Z else digitsValue 0 d
      else 0%Z
  | EmptyString => 0%Z
  end.

(** The mathematical value of [ip.fp] times ten to the [e]. *)
Definition decimalValue (ip fp : string) (e : Z) : Qc :=
  Q2Qc (inject_Z (digitsValue 0 (ip ++ fp))
        * Qpower (inject_Z 10) (e - Z.of_nat (String.length fp))).

(** The fraction at the head of [s]: the digits after a dot, and what
    follows them. *)
Definition fractionPart (s : string) : string * string :=
  match s with
  | String c r => if isDot c then spanDigits r else (EmptyString, s)
  | EmptyString => (EmptyString, s)
  end.

(** StrUnsignedDecimalLiteral at the head of [u]: [Infinity], or digits with
    an optional fraction and an optional exponent, with at least one digit
    before the exponent. *)
Definition parseUnsigned (u : string) : number :=
  if prefix "Infinity" u then PInf
  else
    let (ip, r1) := spanDigits u in
    let (fp, r2) := fractionPart r1 in
    if isEmpty ip && isEmpty fp then NaN
    else Fin (decimalValue ip fp (exponentPart r2)).

Definition neg (x : number) : number :=
  match x with
  | NaN => NaN
  | PInf => NInf
  | NInf => PInf
  | Fin q => Fin (- q)%Qc
  end.

(** [parseFloat(s)]: leading white space is skipped, then the longest prefix
    that is a StrDecimalLiteral is converted; [NaN] when there is none. *)
Definition parseFloat (s : string) : number :=
  match trimStart s with
  | String c u =>
      if isPlus c then parseUnsigned u
      else if isMinus c then neg (parseUnsigned u)
      else parseUnsigned (String c u)
  | EmptyString => NaN
  end.

(** *** Number.prototype.toFixed *)

(** The integer [n] for which [n / 100 - a] is as close to zero as possible,
    the larger one when there are two. *)
Definition nearestCents (a : Qc) : Z :=
  Qfloor (a * Q2Qc (inject_Z 100) + Q2Qc (1 # 2))%Qc.

Definition Qc_abs (q : Qc) : Qc := if Qc_sign_neg q then (- q)%Qc else q.

(** [x.toFixed(2)] *)
Definition toFixed2 (x : number) : string :=
  match x with
  | NaN => "NaN"
  | PInf => "Infinity"
  | NInf => "-Infinity"
  | Fin q =>
      let s := if Qc_sign_neg q then "-" else "" in
      let n := nearestCents (Qc_abs q) in
      let m := decimalString n in
      let m := if (String.length m <=? 2)%nat
               then zeros (3 - String.length m) ++ m else m in
      let k := String.length m in
      s ++ substring 0 (k - 2) m ++ "." ++ substring (k - 2) 2 m
  end.

End JS.

(** ** The component *)

Module PaymentPage.
Import JS.

(** The five [useState] cells of the component. *)
Record state : Type := mkState {
  baseAmount : number;
  baseAmountInput : string;
  selectedTip : number;
  customTip : string;
  customTipDisplay : string
}.

(** The initial values passed to [useState]. *)
Definition initial : state :=
  {| baseAmount := of_Z 200;
     baseAmountInput := "200.00";
     selectedTip := of_Z 0;
     customTip := "";
     customTipDisplay := "" |}.

Definition tipPercentages : list number := [of_Z 10; of_Z 15; of_Z 20].

(** A string used as a condition is true when it is not empty. *)
Definition truthy (s : string) : bool := negb (isEmpty s).

(** [/[^0-9.]/]: the characters that are neither a digit nor a dot. *)
Definition nonNumeric (c : ascii) : bool := negb (isDigit c || isDot c).

(** [/^\d*\.?\d{0,2}$/] *)
Definition amountPattern : regex :=
  Seq (Star (Class isDigit))
      (Seq (Opt (Class isDot)) (UpTo 2 (Class isDigit))).

Definition calculateTipAmount (st : state) (percentage : number) : number :=
  div (mul (baseAmount st) percentage) (of_Z 100).

Definition getTotalAmount (st : state) : number :=
  if truthy (customTip st)
  then add (baseAmount st) (parseFloat (customTip st))
  else add (baseAmount st) (calculateTipAmount st (selectedTip st)).

Definition handleTipSelect (st : state) (percentage : number) : state :=
  {| baseAmount := baseAmount st;
     baseAmountInput := baseAmountInput st;
     selectedTip :=
       if strict_eq (selectedTip st) percentage then of_Z 0 else percentage;
     customTip := "";
     customTipDisplay := "" |}.

Definition handleCustomTipChange (st : state) (value : string) : state :=
  let numericValue := removeAll nonNumeric value in
  if isEmpty numericValue || test amountPattern numericValue then
    let display := if truthy numericValue then "$" ++ numericValue else "" in
    let parsedValue := parseFloat numericValue in
    if negb (isNaN parsedValue) && ge parsedValue (of_Z 1) then
      {| baseAmount := baseAmount st;
         baseAmountInput := baseAmountInput st;
         selectedTip := of_Z 0;
         customTip := numericValue;
         customTipDisplay := display |}
    else if isEmpty numericValue then
      {| baseAmount := baseAmount st;
         baseAmountInput := baseAmountInput st;
         selectedTip := of_Z 0;
         customTip := "";
         customTipDisplay := display |}
    else
      {| baseAmount := baseAmount st;
         baseAmountInput := baseAmountInput st;
         selectedTip := selectedTip st;
         customTip := customTip st;
         customTipDisplay := display |}
  else st.

Definition handleCustomTipBlur (st : state) : state :=
  if truthy (customTip st) then
    let parsedValue := parseFloat (customTip st) in
    if lt parsedValue (of_Z 1) then
      {| baseAmount := baseAmount st;
         baseAmountInput := baseAmountInput st;
         selectedTip := selectedTip st;
         customTip := "1.00";
         customTipDisplay := "$1.00" |}
    else
      let formatted := toFixed2 parsedValue in
      {| baseAmount := baseAmount st;
         baseAmountInput := baseAmountInput st;
         selectedTip := selectedTip st;
         customTip := formatted;
         customTipDisplay := "$" ++ formatted |}
  else
    {| baseAmount := baseAmount st;
       baseAmountInput := baseAmountInput st;
       selectedTip := selectedTip st;
       customTip := customTip st;
       customTipDisplay := "" |}.

Definition handleBaseAmountChange (st : state) (value : string) : state :=
  let numericValue := removeAll nonNumeric value in
  if isEmpty numericValue || test amountPattern numericValue then
    if truthy numericValue && negb (isNaN (parseFloat numericValue)) then
      {| baseAmount := parseFloat numericValue;
         baseAmountInput := numericValue;
         selectedTip := selectedTip st;
         customTip := customTip st;
         customTipDisplay := customTipDisplay st |}
    else if isEmpty numericValue then
      {| baseAmount := of_Z 0;
         baseAmountInput := numericValue;
         selectedTip := selectedTip st;
         customTip := customTip st;
         customTipDisplay := customTipDisplay st |}
    else
      {| baseAmount := baseAmount st;
         baseAmountInput := numericValue;
         selectedTip := selectedTip st;
         customTip := customTip st;
         customTipDisplay := customTipDisplay st |}
  else st.

Definition handleBaseAmountBlur (st : state) : state :=
  if isEmpty (baseAmountInput st) || isNaN (parseFloat (baseAmountInput st))
  then
    {| baseAmount := of_Z 1;
       baseAmountInput := "1.00";
       selectedTip := selectedTip st;
       customTip := customTip st;
       customTipDisplay := customTipDisplay st |}
  else
    let parsedValue := parseFloat (baseAmountInput st) in
    if lt parsedValue (of_Z 1) then
      {| baseAmount := of_Z 1;
         baseAmountInput := "1.00";
         selectedTip := selectedTip st;
         customTip := customTip st;
         customTipDisplay := customTipDisplay st |}
    else
      let formatted := toFixed2 parsedValue in
      {| baseAmount := parseFloat formatted;
         baseAmountInput := formatted;
         selectedTip := selectedTip st;
         customTip := customTip st;
         customTipDisplay := customTipDisplay st |}.


(** The breakdown the component renders: the subtotal line shows
    [baseAmount], the tip line shows
    [customTip ? parseFloat(customTip) : calculateTipAmount(selectedTip)],
    and the total line shows [getTotalAmount()]. *)
Record amounts : Type := mkAmounts {
  subtotal : number;
  tip : number;
  total : number
}.

Definition tipAmount (st : state) : number :=
  if truthy (customTip st)
  then parseFloat (customTip st)
  else calculateTipAmount st (selectedTip st).

Definition derivedAmounts (st : state) : amounts :=
  {| subtotal := baseAmount st;
     tip := tipAmount st;
     total := getTotalAmount st |}.

(** The events of the component, under the names of the specification. *)
Inductive op : Type :=
  | setBaseAmountText (text : string)
  | commitBaseAmount
  | selectPresetTip (percentage : number)
  | setCustomTipText (text : string)
  | commitCustomTip.

Definition step (st : state) (o : op) : state :=
  match o with
  | setBaseAmountText text => handleBaseAmountChange st text
  | commitBaseAmount => handleBaseAmountBlur st
  | selectPresetTip percentage => handleTipSelect st percentage
  | setCustomTipText text => handleCustomTipChange st text
  | commitCustomTip => handleCustomTipBlur st
  end.

Definition run (st : state) (ops : list op) : state := fold_left step ops st.

(** The states the component can be in: the initial one and every state an
    event leads to from a reachable one. *)
Inductive reachable : state -> Prop :=
  | reachable_initial : reachable initial
  | reachable_step st o : reachable st -> reachable (step st o).


End PaymentPage.

(** ** Vocabulary of the properties *)

Module Props.
Import JS PaymentPage.

(** The strings a pattern denotes. *)
Inductive matches : regex -> string -> Prop :=
  | MEps : matches Eps ""
  | MClass p c : p c = true -> matches (Class p) (String c "")
  | MSeq r1 r2 s1 s2 :
      matches r1 s1 -> matches r2 s2 -> matches (Seq r1 r2) (s1 ++ s2)
  | MAltL r1 r2 s : matches r1 s -> matches (Alt r1 r2) s
  | MAltR r1 r2 s : matches r2 s -> matches (Alt r1 r2) s
  | MStarNil r : matches (Star r) ""
  | MStarCons r s1 s2 :
      matches r s1 -> matches (Star r) s2 -> matches (Star r) (s1 ++ s2).

Fixpoint allDigits (s : string) : bool :=
  match s with
  | EmptyString => true
  | String c r => isDigit c && allDigits r
  end.

(** Only digits and dots. *)
Fixpoint numericOnly (s : string) : bool :=
  match s with
  | EmptyString => true
  | String c r => (isDigit c || isDot c) && numericOnly r
  end.

Fixpoint countDots (s : string) : nat :=
  match s with
  | EmptyString => O
  | String c r => if isDot c then S (countDots r) else countDots r
  end.

(** What follows the first dot (nothing when there is no dot). *)
Fixpoint afterDot (s : string) : string :=
  match s with
  | EmptyString => EmptyString
  | String c r => if isDot c then r else afterDot r
  end.

(** A text the input filter lets through unchanged: only digits and dots,
    and of the shape the pattern asks for. *)
Definition accepted (s : string) : Prop :=
  removeAll nonNumeric s = s /\ test amountPattern s = true.

(** Rounding to the cent, halves upwards. *)
Definition round2 (q : Qc) : Qc := Q2Qc (nearestCents q # 100).

Definition Qc_max (a b : Qc) : Qc := if Qc_ltb a b then b else a.

(** The two-decimal notation of a number of cents: the digits of the
    whole part, a dot and two digits. *)
Definition centsNotation (n : Z) : string :=
  decimalString (n / 100) ++
  String "." (String (digitChar (n / 10 mod 10)) (String (digitChar (n mod 10)) "")).

(** The numeric base amount a commit leaves, from what the text reads as:
    the minimum when it does not read as a number, otherwise the larger of
    the minimum and the number rounded to the cent. *)
Definition committedAmount (v : number) : number :=
  match v with
  | NaN => of_Z 1
  | NInf => of_Z 1
  | PInf => PInf
  | Fin q => Fin (Qc_max (Q2Qc 1) (round2 q))
  end.

(** What holds of the base amount in every reachable state: the editable
    text has only digits and at most one dot, the numeric amount is finite,
    it is the number the text reads as when the text reads as one, and it
    is zero when the text is empty. *)
Record baseInvariant (st : state) : Prop := mkBaseInvariant {
  base_text_numeric : numericOnly (baseAmountInput st) = true;
  base_text_dots : (countDots (baseAmountInput st) <= 1)%nat;
  base_finite : isFinite (baseAmount st) = true;
  base_tracks_text :
    isNaN (parseFloat (baseAmountInput st)) = false ->
    baseAmount st = parseFloat (baseAmountInput st);
  base_zero_when_empty :
    baseAmountInput st = "" -> baseAmount st = of_Z 0
}.

(** What holds of the tip in every reachable state: an active custom tip
    goes with no preset, and reads as a number that is at least one. *)
Record tipInvariant (st : state) : Prop := mkTipInvariant {
  tip_exclusive : customTip st <> "" -> selectedTip st = of_Z 0;
  tip_minimum :
    customTip st <> "" -> ge (parseFloat (customTip st)) (of_Z 1) = true
}.

(** [commitCustomTip()] without its clamping branch: an active custom tip is
    printed again with two decimals, and without one the display is
    cleared. *)
Definition reformatOrClear (st : state) : state :=
  if truthy (customTip st) then
    let formatted := toFixed2 (parseFloat (customTip st)) in
    {| baseAmount := baseAmount st;
       baseAmountInput := baseAmountInput st;
       selectedTip := selectedTip st;
       customTip := formatted;
       customTipDisplay := "$" ++ formatted |}
  else
    {| baseAmount := baseAmount st;
       baseAmountInput := baseAmountInput st;
       selectedTip := selectedTip st;
       customTip := customTip st;
       customTipDisplay := "" |}.

(** The numerator of a finite number in lowest terms (zero otherwise); it
    tells two numbers apart. *)
Definition numerator (x : number) : Z :=
  match x with
  | Fin q => Qnum (this q)
  | _ => 0%Z
  end.

(** The preset selection is active when the selected percentage is not 0,
    the value that stands for no preset; the custom tip is active when its
    value is not empty. *)
Definition presetActive (st : state) : bool :=
  negb (strict_eq (selectedTip st) (of_Z 0)).

Definition customActive (st : state) : bool := truthy (customTip st).

End Props.

(** ** Vocabulary of the further properties of the payment page *)

Module PaymentProps.
Import JS PaymentPage Props.

(** A text of the shape the input filter lets through: digits and dots, at
    most one dot, at most two characters after it. *)
Definition shaped (s : string) : Prop :=
  numericOnly s = true /\ (countDots s <= 1)%nat /\
  (String.length (afterDot s) <= 2)%nat.

(** A whole number of cents that is not negative. *)
Definition isCents (x : number) : Prop :=
  exists n : Z, (0 <= n)%Z /\ x = Fin (Q2Qc (n # 100)).

(** What holds of the amounts in every reachable state: the two texts have
    the shape the filter lets through, and the numeric base amount is a
    whole number of cents. *)
Record moneyInvariant (st : state) : Prop := mkMoneyInvariant {
  money_base_text : shaped (baseAmountInput st);
  money_base_cents : isCents (baseAmount st);
  money_custom_text : shaped (customTip st)
}.

(** The operations on the base amount, as opposed to those on the tip. *)
Definition isBaseOp (o : op) : bool :=
  match o with
  | setBaseAmountText _ | commitBaseAmount => true
  | _ => false
  end.



End PaymentProps.

(** ** More ECMAScript built-ins: [trim] and [toLowerCase] *)

Module Text.
Import JS.

(** [s.trimEnd()] *)
Fixpoint trimEnd (s : string) : string :=
  match s with
  | EmptyString => EmptyString
  | String c r =>
      match trimEnd r with
      | EmptyString =>
          if isWhiteSpace c then EmptyString else String c EmptyString
      | t => String c t
      end
  end.

(** [s.trim()]: the white space at both ends is removed. *)
Definition trim (s : string) : string := trimEnd (trimStart s).

(** The lower-case form of a code unit below 256: the letters [A] to [Z]
    and the capital letters of Latin-1 (192 to 222, the multiplication sign
    215 apart) move up by 32, every other one stays. *)
Definition lowerChar (c : ascii) : ascii :=
  let n := code c in
  if (((65 <=? n) && (n <=? 90)) ||
      ((192 <=? n) && (n <=? 222) && negb (n =? 215)))%N
  then ascii_of_N (n + 32)
  else c.

Fixpoint mapString (f : ascii -> ascii) (s : string) : string :=
  match s with
  | EmptyString => EmptyString
  | String c r => String (f c) (mapString f r)
  end.

(** [s.toLowerCase()] *)
Definition toLowerCase (s : string) : string := mapString lowerChar s.

(** [/[cls]/.test(s)], a pattern of one class without anchors: some
    character of [s] belongs to the class. *)
Fixpoint containsClass (cls : ascii -> bool) (s : string) : bool :=
  match s with
  | EmptyString => false
  | String c r => cls c || containsClass cls r
  end.

(** [r+] *)
Definition Plus (r : regex) : regex := Seq r (Star r).

End Text.

(** ** The profile service: validation and completeness *)

Module ProfileService.
Import JS Text.

Record UserProfile : Type := mkUserProfile {
  id : string;
  created_at : string;
  user_id : string;
  name : string;
  email : string;
  business_name : option string;
  phone : option string
}.

(** [Partial<UserProfile>]: every field may be absent. *)
Record ProfileUpdates : Type := mkProfileUpdates {
  u_id : option string;
  u_created_at : option string;
  u_user_id : option string;
  u_name : option string;
  u_email : option string;
  u_business_name : option string;
  u_phone : option string
}.

(** [{ message, code? }]; the field [code] is [error_code] here. *)
Record ProfileServiceError : Type := mkProfileServiceError {
  message : string;
  error_code : option string
}.

Record ProfileResult : Type := mkProfileResult {
  profile : option UserProfile;
  error : option ProfileServiceError
}.

(** [o && f(o)] for an optional string: false when the string is absent or
    empty. *)
Definition whenPresent (o : option string) (f : string -> bool) : bool :=
  match o with
  | Some s => negb (isEmpty s) && f s
  | None => false
  end.

(** [[1-9]] *)
Definition isNonZeroDigit (c : ascii) : bool :=
  ((49 <=? code c) && (code c <=? 57))%N.

(** [/^[\+]?[1-9][\d]{0,15}$/] *)
Definition phonePattern : regex :=
  Seq (Opt (Class isPlus))
      (Seq (Class isNonZeroDigit) (UpTo 15 (Class isDigit))).

Definition validateProfileData (data : ProfileUpdates)
  : option ProfileServiceError :=
  if whenPresent (u_name data) (fun n => (String.length (trim n) <? 2)%nat)
  then Some {| message := "Name must be at least 2 characters long";
               error_code := None |}
  else if whenPresent (u_phone data)
            (fun p => (0 <? String.length p)%nat && negb (test phonePattern p))
  then Some {| message := "Please enter a valid phone number";
               error_code := None |}
  else if whenPresent (u_business_name data)
            (fun b => (String.length (trim b) <? 2)%nat)
  then Some {| message := "Business name must be at least 2 characters long";
               error_code := None |}
  else None.

(** The updates with [name], [business_name] and [phone] trimmed. *)
Definition sanitizeUpdates (updates : ProfileUpdates) : ProfileUpdates :=
  {| u_id := u_id updates;
     u_created_at := u_created_at updates;
     u_user_id := u_user_id updates;
     u_name := option_map trim (u_name updates);
     u_email := u_email updates;
     u_business_name := option_map trim (u_business_name updates);
     u_phone := option_map trim (u_phone updates) |}.

(** [updateProfileWithValidation]; [updateProfile], which talks to the
    store, is the first argument. *)
Definition updateProfileWithValidation
    (updateProfile : string -> ProfileUpdates -> ProfileResult)
    (userId : string) (updates : ProfileUpdates) : ProfileResult :=
  match validateProfileData updates with
  | Some validationError =>
      {| profile := None; error := Some validationError |}
  | None => updateProfile userId (sanitizeUpdates updates)
  end.

(** [!!(profile.business_name?.trim() && profile.phone?.trim())] *)
Definition isProfileComplete (p : UserProfile) : bool :=
  match business_name p with
  | Some b =>
      negb (isEmpty (trim b)) &&
      match phone p with
      | Some ph => negb (isEmpty (trim ph))
      | None => false
      end
  | None => false
  end.

End ProfileService.

(** ** The profile completion dialog *)

Module ProfileCompletionModal.
Import JS Text ProfileService.

(** The [useState] cells of the dialog. *)
Record state : Type := mkState {
  businessName : string;
  phoneInput : string;
  isSubmitting : bool;
  errorText : option string
}.

(** [handleSubmit]: the state it leaves, and whether [onComplete] was
    called.  The checks of the dialog return early; past them the update
    goes to the service and [finally] clears [isSubmitting]. *)
Definition handleSubmit
    (updateProfile : string -> ProfileUpdates -> ProfileResult)
    (userProfile : UserProfile) (st : state) : state * bool :=
  let failed (msg : string) :=
    ({| businessName := businessName st;
        phoneInput := phoneInput st;
        isSubmitting := isSubmitting st;
        errorText := Some msg |}, false) in
  if isEmpty (trim (businessName st)) then failed "Business name is required"
  else if isEmpty (trim (phoneInput st)) then failed "Phone number is required"
  else if (String.length (trim (phoneInput st)) <? 10)%nat
  then failed "Please enter a valid phone number"
  else
    let result :=
      updateProfileWithValidation updateProfile (user_id userProfile)
        {| u_id := None; u_created_at := None; u_user_id := None;
           u_name := None; u_email := None;
           u_business_name := Some (trim (businessName st));
           u_phone := Some (trim (phoneInput st)) |} in
    match error result with
    | Some updateError =>
        ({| businessName := businessName st;
            phoneInput := phoneInput st;
            isSubmitting := false;
            errorText := Some (message updateError) |}, false)
    | None =>
        ({| businessName := businessName st;
            phoneInput := phoneInput st;
            isSubmitting := false;
            errorText := None |}, true)
    end.

End ProfileCompletionModal.

(** ** The authentication service *)

Module AuthService.
Import JS Text.

(** [{ message, code? }]; the field [code] is [error_code] here. *)
Record AuthServiceError : Type := mkAuthServiceError {
  message : string;
  error_code : option string
}.

(** An error of the authentication backend; the service reads only its
    [message]. *)
Definition AuthError : Type := string.

(** What a call to the backend does besides changing the store: it throws,
    or it resolves to [{ data, error }]. *)
Inductive reply (A : Type) : Type :=
  | Throws : reply A
  | Resolves (data : A) (error : option AuthError) : reply A.

Arguments Throws {A}.
Arguments Resolves {A} data error.

Definition isAt (c : ascii) : bool := (code c =? 64)%N.

(** [[^\s@]] *)
Definition notSpaceAt (c : ascii) : bool := negb (isWhiteSpace c || isAt c).

(** [/^[^\s@]+@[^\s@]+\.[^\s@]+$/] *)
Definition emailPattern : regex :=
  Seq (Plus (Class notSpaceAt))
      (Seq (Class isAt)
           (Seq (Plus (Class notSpaceAt))
                (Seq (Class isDot) (Plus (Class notSpaceAt))))).

Definition validateEmail (email : string) : bool :=
  test emailPattern (toLowerCase (trim email)).

(** [[A-Z]] and [[a-z]] *)
Definition isUpper (c : ascii) : bool := ((65 <=? code c) && (code c <=? 90))%N.
Definition isLower (c : ascii) : bool := ((97 <=? code c) && (code c <=? 122))%N.

(** The class of the twenty special characters of the password rule, by
    code: exclamation mark, at sign, hash, dollar, percent, caret,
    ampersand, asterisk, the parentheses, comma, dot, question mark, double
    quote, colon, the braces, bar, and the angle brackets. *)
Definition specialCodes : list N :=
  [33; 64; 35; 36; 37; 94; 38; 42; 40; 41; 44; 46; 63; 34; 58; 123; 125;
   124; 60; 62]%N.

Definition isSpecial (c : ascii) : bool :=
  existsb (fun n => (code c =? n)%N) specialCodes.

Definition validatePassword (password : string) : bool :=
  (8 <=? String.length password)%nat &&
  containsClass isUpper password &&
  containsClass isLower password &&
  containsClass isDigit password &&
  containsClass isSpecial password.

Definition sanitizeInput (input : string) : string :=
  toLowerCase (trim input).

(** [getErrorMessage]: the [switch] on the message of the backend error. *)
Definition getErrorMessage (error : AuthError) : string :=
  if (error =? "Invalid login credentials")%string then
    "Invalid email or password. Please check your credentials and try again."
  else if (error =? "User already registered")%string then
    "This email is already registered. Please try signing in instead."
  else if (error =? "Email not confirmed")%string then
    "Please check your email and click the verification link before signing in."
  else if (error =? "Too many requests")%string then
    "Too many attempts. Please wait a few minutes before trying again."
  else if (error =? "Weak password")%string then
    "Password is too weak. Please use a stronger password with at least 8 characters."
  else if (error =? "Invalid email")%string then
    "Please enter a valid email address."
  else if isEmpty error then "An error occurred. Please try again."
  else error.

Section Backend.

(** The users and sessions of the backend, and its store. *)
Variables User Session Store : Type.

(** [supabase.auth.signInWithPassword({ email, password })] *)
Variable signInWithPassword :
  Store -> string -> string -> Store * reply (option User * option Session).

(** [supabase.auth.signUp] with the address, the password and the name; the
    time stamp and the redirect address, which [signUp] only passes on, are
    left to the operation. *)
Variable authSignUp :
  Store -> string -> string -> string -> Store * reply (option User).

(** [profileService.createProfile(user, { name })], of which [signUp] uses
    nothing but the effect. *)
Variable createProfile : Store -> User -> string -> Store.

(** [supabase.auth.resetPasswordForEmail] *)
Variable resetPasswordForEmail : Store -> string -> Store * reply unit.

Record SignInResult : Type := mkSignInResult {
  signin_user : option User;
  signin_session : option Session;
  signin_error : option AuthServiceError
}.

Record SignUpResult : Type := mkSignUpResult {
  signup_user : option User;
  signup_error : option AuthServiceError
}.

Definition signInFailure (msg code : string) : SignInResult :=
  {| signin_user := None; signin_session := None;
     signin_error := Some {| message := msg; error_code := Some code |} |}.

Definition signUpFailure (msg code : string) : SignUpResult :=
  {| signup_user := None;
     signup_error := Some {| message := msg; error_code := Some code |} |}.

Definition signIn (store : Store) (email password : string)
  : Store * SignInResult :=
  if negb (validateEmail email) then
    (store, signInFailure "Please enter a valid email address" "INVALID_EMAIL")
  else if (String.length password <? 6)%nat then
    (store, signInFailure "Password is required" "INVALID_PASSWORD")
  else
    let sanitizedEmail := sanitizeInput email in
    match signInWithPassword store sanitizedEmail password with
    | (store', Throws) =>
        (store', signInFailure "An unexpected error occurred during signin"
                   "SIGNIN_ERROR")
    | (store', Resolves _ (Some error)) =>
        (store', signInFailure (getErrorMessage error) error)
    | (store', Resolves (user, session) None) =>
        (store', {| signin_user := user; signin_session := session;
                    signin_error := None |})
    end.

Definition signUp (store : Store) (email password name : string)
  : Store * SignUpResult :=
  if negb (validateEmail email) then
    (store, signUpFailure "Please enter a valid email address" "INVALID_EMAIL")
  else if negb (validatePassword password) then
    (store,
     signUpFailure
       "Password must be at least 8 characters with uppercase, lowercase, number, and special character"
       "WEAK_PASSWORD")
  else if (String.length (trim name) <? 2)%nat then
    (store,
     signUpFailure "Name must be at least 2 characters long" "INVALID_NAME")
  else
    let sanitizedEmail := sanitizeInput email in
    let sanitizedName := trim name in
    match authSignUp store sanitizedEmail password sanitizedName with
    | (store', Throws) =>
        (store', signUpFailure "An unexpected error occurred during signup"
                   "SIGNUP_ERROR")
    | (store', Resolves _ (Some error)) =>
        (store', signUpFailure (getErrorMessage error) error)
    | (store', Resolves user None) =>
        let store'' :=
          match user with
          | Some u => createProfile store' u sanitizedName
          | None => store'
          end in
        (store'', {| signup_user := user; signup_error := None |})
    end.

Definition resetPassword (store : Store) (email : string)
  : Store * option AuthServiceError :=
  if negb (validateEmail email) then
    (store, Some {| message := "Please enter a valid email address";
                    error_code := Some "INVALID_EMAIL" |})
  else
    match resetPasswordForEmail store (sanitizeInput email) with
    | (store', Throws) =>
        (store', Some {| message := "An unexpected error occurred";
                         error_code := Some "RESET_ERROR" |})
    | (store', Resolves _ (Some error)) =>
        (store', Some {| message := getErrorMessage error;
                         error_code := Some error |})
    | (store', Resolves _ None) => (store', None)
    end.

End Backend.

Arguments signin_user {User Session}.
Arguments signin_session {User Session}.
Arguments signin_error {User Session}.
Arguments signup_user {User}.
Arguments signup_error {User}.

End AuthService.

(** ** The authentication dialog *)

Module AuthModal.
Import JS Text AuthService.

Record FormData : Type := mkFormData {
  name : string;
  email : string;
  password : string;
  confirmPassword : string
}.

(** The [useState] cells of the dialog. *)
Record state : Type := mkState {
  isLoginMode : bool;
  formData : FormData;
  isLoading : bool;
  errorText : option string;
  successMessage : option string
}.

(** The fields of the form, the keys [handleInputChange] takes. *)
Inductive field : Type := Name | Email | Password | ConfirmPassword.

Definition handleInputChange (st : state) (f : field) (value : string)
  : state :=
  let d := formData st in
  {| isLoginMode := isLoginMode st;
     formData :=
       match f with
       | Name =>
           {| name := value; email := email d; password := password d;
              confirmPassword := confirmPassword d |}
       | Email =>
           {| name := name d; email := value; password := password d;
              confirmPassword := confirmPassword d |}
       | Password =>
           {| name := name d; email := email d; password := value;
              confirmPassword := confirmPassword d |}
       | ConfirmPassword =>
           {| name := name d; email := email d; password := password d;
              confirmPassword := value |}
       end;
     isLoading := isLoading st;
     errorText := errorText st;
     successMessage := successMessage st |}.

Definition switchMode (st : state) : state :=
  {| isLoginMode := negb (isLoginMode st);
     formData := {| name := ""; email := ""; password := "";
                    confirmPassword := "" |};
     isLoading := isLoading st;
     errorText := None;
     successMessage := None |}.

Section Backend.

Variables User Session Store : Type.
Variable signInWithPassword :
  Store -> string -> string -> Store * reply (option User * option Session).
Variable authSignUp :
  Store -> string -> string -> string -> Store * reply (option User).
Variable createProfile : Store -> User -> string -> Store.
Variable resetPasswordForEmail : Store -> string -> Store * reply unit.

(** The state [handleSubmit] leaves when it is done: [finally] clears
    [isLoading]. *)
Definition submitted (mode : bool) (d : FormData)
    (err succ : option string) : state :=
  {| isLoginMode := mode; formData := d; isLoading := false;
     errorText := err; successMessage := succ |}.

(** [handleSubmit]: the store and the state it leaves, and whether
    [onLogin] was called. *)
Definition handleSubmit (store : Store) (st : state)
  : Store * state * bool :=
  let d := formData st in
  if isLoginMode st then
    let (store', r) :=
      signIn User Session Store signInWithPassword store (email d)
        (password d) in
    match signin_error r with
    | Some loginError =>
        (store', submitted true d (Some (message loginError)) None, false)
    | None =>
        match signin_user r, signin_session r with
        | Some _, Some _ =>
            (store',
             submitted true d None (Some "Successfully signed in!"), true)
        | _, _ => (store', submitted true d None None, false)
        end
    end
  else if negb (password d =? confirmPassword d)%string then
    (store, submitted false d (Some "Passwords do not match") None, false)
  else
    let (store', r) :=
      signUp User Store authSignUp createProfile store (email d) (password d)
        (name d) in
    match signup_error r with
    | Some signupError =>
        (store', submitted false d (Some (message signupError)) None, false)
    | None =>
        match signup_user r with
        | Some _ =>
            (store',
             submitted true
               {| name := ""; email := email d; password := "";
                  confirmPassword := "" |}
               None
               (Some "Account created! Please check your email to verify your account before signing in."),
             false)
        | None => (store', submitted false d None None, false)
        end
    end.

Definition handleForgotPassword (store : Store) (st : state)
  : Store * state :=
  if isEmpty (email (formData st)) then
    (store,
     {| isLoginMode := isLoginMode st; formData := formData st;
        isLoading := isLoading st;
        errorText := Some "Please enter your email address first";
        successMessage := successMessage st |})
  else
    let (store', resetError) :=
      resetPassword Store resetPasswordForEmail store (email (formData st)) in
    match resetError with
    | Some e =>
        (store',
         {| isLoginMode := isLoginMode st; formData := formData st;
            isLoading := false; errorText := Some (message e);
            successMessage := successMessage st |})
    | None =>
        (store',
         {| isLoginMode := isLoginMode st; formData := formData st;
            isLoading := false; errorText := None;
            successMessage :=
              Some "Password reset email sent! Check your inbox." |})
    end.

End Backend.

End AuthModal.

(** ** Vocabulary of the properties of the services and dialogs *)

Module ServiceProps.
Import JS Text ProfileService AuthService.

(** Every character of the text belongs to the class. *)
Fixpoint allClass (cls : ascii -> bool) (s : string) : bool :=
  match s with
  | EmptyString => true
  | String c r => cls c && allClass cls r
  end.

Definition notSpace (c : ascii) : bool := negb (isWhiteSpace c).

(** The text has a character that is not white space. *)
Definition hasVisible (s : string) : bool := containsClass notSpace s.

(** The phone numbers the service accepts: an optional plus sign, a digit
    that is not zero, and up to fifteen more digits. *)
Definition phoneShape (p : string) : Prop :=
  exists sign d rest,
    p = sign ++ String d rest /\ (sign = "" \/ sign = "+") /\
    isNonZeroDigit d = true /\ allClass isDigit rest = true /\
    (String.length rest <= 15)%nat.

(** The addresses the service accepts: a local part, an at sign, and a
    domain with a dot inside, none of the three parts empty or holding
    white space or an at sign. *)
Definition emailShape (s : string) : Prop :=
  exists l x y,
    s = l ++ String "@" (x ++ String "." y) /\
    l <> "" /\ x <> "" /\ y <> "" /\
    allClass notSpaceAt l = true /\ allClass notSpaceAt x = true /\
    allClass notSpaceAt y = true.

(** A name as it may reach the store: absent, empty, or of two characters
    at least with no white space at either end. *)
Definition storedName (o : option string) : Prop :=
  match o with
  | None => True
  | Some s => s = "" \/ ((2 <= String.length s)%nat /\ trim s = s)
  end.

(** A phone number as it may reach the store: absent, empty, or of the
    accepted shape. *)
Definition storedPhone (o : option string) : Prop :=
  match o with
  | None => True
  | Some p => p = "" \/ phoneShape p
  end.

(** The predicates of a pattern are the same on [c] and on [f c]. *)
Fixpoint classesInvariant (f : ascii -> ascii) (r : regex) : Prop :=
  match r with
  | Void | Eps => True
  | Class p => forall c, p (f c) = p c
  | Seq r1 r2 | Alt r1 r2 => classesInvariant f r1 /\ classesInvariant f r2
  | Star r1 => classesInvariant f r1
  end.

(** An error of the authentication service as its callers show it: a
    message that is not empty, and a code. *)
Definition wellFormed (e : AuthServiceError) : Prop :=
  AuthService.message e <> "" /\ AuthService.error_code e <> None.

(** Sample values: a store that accepts every update, an update of the
    phone number alone, a profile, and a backend over a counter of the calls
    made to it. *)
Definition accepting (_ : string) (_ : ProfileUpdates) : ProfileResult :=
  {| profile := None; error := None |}.

Definition onlyPhone (p : string) : ProfileUpdates :=
  {| u_id := None; u_created_at := None; u_user_id := None; u_name := None;
     u_email := None; u_business_name := None; u_phone := Some p |}.

Definition sampleProfile : UserProfile :=
  {| id := "p1"; created_at := "2024-01-01"; user_id := "u1";
     ProfileService.name := "Ann"; ProfileService.email := "ann@example.com";
     business_name := Some "Acme"; phone := Some "5551234567" |}.

Definition grantingSignIn (calls : nat) (_ _ : string)
  : nat * reply (option unit * option unit) :=
  (S calls, Resolves (Some tt, Some tt) None).

Definition refusingSignIn (calls : nat) (_ _ : string)
  : nat * reply (option unit * option unit) :=
  (S calls, Resolves (None, None) (Some "Invalid login credentials")).

Definition grantingSignUp (calls : nat) (_ _ _ : string)
  : nat * reply (option unit) :=
  (S calls, Resolves (Some tt) None).

Definition countingCreateProfile (calls : nat) (_ : unit) (_ : string) : nat :=
  S calls.

Definition failingReset (calls : nat) (_ : string) : nat * reply unit :=
  (S calls, Throws).

End ServiceProps.

Import JS PaymentPage Props.

(** ** Strings *)

Section Strings.

Lemma append_nil_r (s : string) : s ++ "" = s.
Proof. induction s as [|c s IH]; simpl; [reflexivity | now rewrite IH]. Qed.

Lemma append_assoc (a b c : string) : (a ++ b) ++ c = a ++ (b ++ c).
Proof. induction a as [|x a IH]; simpl; [reflexivity | now rewrite IH]. Qed.

Lemma length_append (a b : string) :
  String.length (a ++ b) = (String.length a + String.length b)%nat.
Proof. induction a as [|x a IH]; simpl; [reflexivity | now rewrite IH]. Qed.

Lemma append_eq_nil (a b : string) : a ++ b = "" -> a = "" /\ b = "".
Proof. destruct a; simpl; [auto | discriminate]. Qed.

Lemma substring_all (s : string) : substring 0 (String.length s) s = s.
Proof. induction s as [|c s IH]; simpl; [reflexivity | now rewrite IH]. Qed.

Lemma substring_append_l (a b : string) :
  substring 0 (String.length a) (a ++ b) = a.
Proof.
  induction a as [|x a IH]; simpl.
  - destruct b; reflexivity.
  - now rewrite IH.
Qed.

Lemma substring_append_r (a b : string) (n : nat) :
  substring (String.length a) n (a ++ b) = substring 0 n b.
Proof. induction a as [|x a IH]; simpl; [reflexivity | exact IH]. Qed.

Lemma isEmpty_true (s : string) : isEmpty s = true <-> s = "".
Proof. destruct s; simpl; split; congruence. Qed.

Lemma isEmpty_false (s : string) : isEmpty s = false <-> s <> "".
Proof. destruct s; simpl; split; congruence. Qed.

End Strings.

(** ** The language of a pattern *)

Section Regex.

Lemma nullable_matches (r : regex) : nullable r = true <-> matches r "".
Proof.
  induction r as [| |p|r1 IH1 r2 IH2|r1 IH1 r2 IH2|r IH]; simpl.
  - split; [discriminate | intros H; inversion H].
  - split; [intros _; constructor | reflexivity].
  - split; [discriminate | intros H; inversion H].
  - rewrite andb_true_iff, IH1, IH2. split.
    + intros [H1 H2]. change "" with ("" ++ ""). now constructor.
    + intros H. inversion H; subst.
      match goal with E : _ ++ _ = "" |- _ =>
        apply append_eq_nil in E as [-> ->] end.
      now split.
  - rewrite orb_true_iff, IH1, IH2. split.
    + intros [H|H]; [now apply MAltL | now apply MAltR].
    + intros H. inversion H; subst; auto.
  - split; [intros _; constructor | reflexivity].
Qed.

Lemma matches_star_cons_gen (r' : regex) (t : string) :
  matches r' t ->
  forall r c s, r' = Star r -> t = String c s ->
  exists s1 s2, s = s1 ++ s2 /\ matches r (String c s1) /\ matches (Star r) s2.
Proof.
  induction 1 as [| | | | | |r0 s1 s2 H1 _ H2 IH2]; intros rr cc ss Er Et;
    try discriminate.
  injection Er as ->. destruct s1 as [|c1 s1]; simpl in Et.
  - now apply IH2.
  - injection Et as E1 E2. subst. exists s1, s2. auto.
Qed.

Lemma matches_star_cons (r : regex) (c : ascii) (s : string) :
  matches (Star r) (String c s) ->
  exists s1 s2, s = s1 ++ s2 /\ matches r (String c s1) /\ matches (Star r) s2.
Proof. intros H. now apply (matches_star_cons_gen _ _ H). Qed.

Lemma deriv_matches (r : regex) (c : ascii) (s : string) :
  matches (deriv c r) s <-> matches r (String c s).
Proof.
  revert s.
  induction r as [| |p|r1 IH1 r2 IH2|r1 IH1 r2 IH2|r IH]; intros s; simpl.
  - split; intros H; inversion H.
  - split; intros H; inversion H.
  - destruct (p c) eqn:Ep; split; intros H; inversion H; subst.
    + now constructor.
    + constructor.
    + congruence.
  - assert (Hseq : matches (Seq (deriv c r1) r2) s <->
                   exists s1 s2, s = s1 ++ s2 /\
                     matches r1 (String c s1) /\ matches r2 s2).
    { split.
      - intros H. inversion H; subst. eexists _, _. split; [reflexivity|].
        split; [now apply IH1 | assumption].
      - intros (s1 & s2 & -> & H1 & H2). constructor; [now apply IH1 | assumption]. }
    assert (Hall : matches (Seq r1 r2) (String c s) <->
                   (exists s1 s2, s = s1 ++ s2 /\
                      matches r1 (String c s1) /\ matches r2 s2) \/
                   (matches r1 "" /\ matches r2 (String c s))).
    { split.
      - intros H. inversion H as [| |? ? s1 s2 H1 H2 [E1 E2] E| | | |]; subst.
        destruct s1 as [|c1 s1]; simpl in E.
        + right. subst. auto.
        + injection E as E1 E2. subst. left. eauto.
      - intros [(s1 & s2 & -> & H1 & H2) | [H1 H2]].
        + change (String c (s1 ++ s2)) with (String c s1 ++ s2). now constructor.
        + change (String c s) with ("" ++ String c s). now constructor. }
    rewrite Hall. destruct (nullable r1) eqn:En.
    + split.
      * intros H. inversion H; subst.
        -- left. now apply Hseq.
        -- right. split; [now apply nullable_matches | now apply IH2].
      * intros [H | [_ H2]].
        -- apply MAltL. now apply Hseq.
        -- apply MAltR. now apply IH2.
    + rewrite Hseq. split; [auto|].
      intros [H | [H1 _]]; [assumption|].
      apply nullable_matches in H1. congruence.
  - split; intros H; inversion H; subst.
    + apply MAltL. now apply IH1.
    + apply MAltR. now apply IH2.
    + apply MAltL. now apply IH1.
    + apply MAltR. now apply IH2.
  - split.
    + intros H. inversion H; subst.
      change (String c (s1 ++ s2)) with (String c s1 ++ s2).
      constructor; [now apply IH | assumption].
    + intros H. apply matches_star_cons in H as (s1 & s2 & -> & H1 & H2).
      constructor; [now apply IH | assumption].
Qed.

(** [test] decides the language of the pattern. *)
Lemma test_matches (r : regex) (s : string) : test r s = true <-> matches r s.
Proof.
  revert r. induction s as [|c s IH]; intros r; simpl.
  - apply nullable_matches.
  - rewrite IH. apply deriv_matches.
Qed.

End Regex.

(** ** The amount pattern *)

Section AmountPattern.

Lemma isDot_eq (c : ascii) : isDot c = true -> c = "."%char.
Proof.
  unfold isDot, code. intros H. apply N.eqb_eq in H.
  rewrite <- (ascii_N_embedding c), H. reflexivity.
Qed.

Lemma isDigit_not_dot (c : ascii) : isDigit c = true -> isDot c = false.
Proof.
  unfold isDigit, isDot. rewrite andb_true_iff, !N.leb_le. intros [H1 H2].
  apply N.eqb_neq. lia.
Qed.

Lemma allDigits_append (a b : string) :
  allDigits (a ++ b) = allDigits a && allDigits b.
Proof.
  induction a as [|c a IH]; simpl; [reflexivity|].
  now rewrite IH, andb_assoc.
Qed.

Lemma allDigits_no_dot (s : string) :
  allDigits s = true -> countDots s = O /\ afterDot s = "".
Proof.
  induction s as [|c s IH]; simpl; [auto|].
  rewrite andb_true_iff. intros [Hc Hs].
  rewrite (isDigit_not_dot _ Hc). auto.
Qed.

Lemma numericOnly_no_dot (s : string) :
  numericOnly s = true -> countDots s = O -> allDigits s = true.
Proof.
  induction s as [|c s IH]; simpl; [auto|].
  rewrite andb_true_iff. intros [Hc Hs].
  destruct (isDot c); [discriminate|].
  rewrite orb_false_r in Hc. rewrite Hc. simpl. auto.
Qed.

(** A text of digits and dots is a run of digits, or a run of digits, a
    dot and the rest. *)
Lemma numericOnly_split (s : string) :
  numericOnly s = true ->
  allDigits s = true \/
  exists a b, s = a ++ String "." b /\ allDigits a = true /\
              afterDot s = b /\ countDots s = S (countDots b) /\
              numericOnly b = true.
Proof.
  induction s as [|c s IH]; simpl; [auto|].
  rewrite andb_true_iff. intros [Hc Hs].
  destruct (isDot c) eqn:Hd.
  - right. exists "", s. apply isDot_eq in Hd. subst c. auto.
  - rewrite orb_false_r in Hc. rewrite Hc. simpl.
    destruct (IH Hs) as [H | (a & b & -> & Ha & Hb & Hn & Hb')]; [auto|].
    right. exists (String c a), b. simpl. rewrite Hc, Ha. auto.
Qed.

Lemma removeAll_numericOnly (s : string) :
  numericOnly (removeAll nonNumeric s) = true.
Proof.
  induction s as [|c s IH]; simpl; [reflexivity|].
  unfold nonNumeric at 1. destruct (isDigit c || isDot c) eqn:E; simpl.
  - now rewrite E.
  - exact IH.
Qed.

Lemma removeAll_fixed (s : string) :
  numericOnly s = true -> removeAll nonNumeric s = s.
Proof.
  induction s as [|c s IH]; simpl; [reflexivity|].
  rewrite andb_true_iff. intros [Hc Hs]. unfold nonNumeric at 1.
  rewrite Hc. simpl. now rewrite IH.
Qed.

Lemma matches_star_digits_gen (r : regex) (s : string) :
  matches r s -> r = Star (Class isDigit) -> allDigits s = true.
Proof.
  induction 1 as [| | | | | |r0 s1 s2 H1 _ H2 IH2]; intros E;
    try discriminate; [reflexivity|].
  injection E as ->. rewrite allDigits_append, (IH2 eq_refl), andb_true_r.
  inversion H1; subst. simpl. now rewrite andb_true_r.
Qed.

Lemma allDigits_matches_star (s : string) :
  allDigits s = true -> matches (Star (Class isDigit)) s.
Proof.
  induction s as [|c s IH]; simpl; [constructor|].
  rewrite andb_true_iff. intros [Hc Hs].
  change (String c s) with (String c "" ++ s).
  constructor; [now constructor | auto].
Qed.

Lemma matches_upto2 (s : string) :
  matches (UpTo 2 (Class isDigit)) s <->
  allDigits s = true /\ (String.length s <= 2)%nat.
Proof.
  split.
  - intros H. simpl in H. unfold Opt in H.
    repeat match goal with
    | H : matches (Alt _ _) _ |- _ => inversion H; clear H; subst
    | H : matches (Seq _ _) _ |- _ => inversion H; clear H; subst
    | H : matches (Class _) _ |- _ => inversion H; clear H; subst
    | H : matches Eps _ |- _ => inversion H; clear H; subst
    end; simpl;
    repeat match goal with H : isDigit _ = true |- _ => rewrite H; clear H end;
    simpl; split; (reflexivity || lia).
  - intros [Hd Hl]. simpl. unfold Opt.
    destruct s as [|c1 [|c2 [|c3 s]]]; simpl in *; try lia.
    + apply MAltR. constructor.
    + rewrite andb_true_r in Hd. apply MAltL.
      change (String c1 "") with (String c1 "" ++ "").
      constructor; [now constructor | apply MAltR; constructor].
    + rewrite andb_true_r, andb_true_iff in Hd. destruct Hd as [H1 H2].
      apply MAltL. change (String c1 (String c2 "")) with (String c1 "" ++ String c2 "").
      constructor; [now constructor|].
      apply MAltL. change (String c2 "") with (String c2 "" ++ "").
      constructor; [now constructor | constructor].
Qed.

(** The shape the pattern asks for, on a text of digits and dots: at most
    one dot and at most two characters after it. *)
Lemma test_amountPattern (s : string) :
  numericOnly s = true ->
  test amountPattern s = true <->
  (countDots s <= 1)%nat /\ (String.length (afterDot s) <= 2)%nat.
Proof.
  intros Hn. rewrite test_matches. unfold amountPattern. split.
  - intros H. inversion H as [| |? ? s1 t H1 Ht| | | |]; subst.
    inversion Ht as [| |? ? s2 s3 H2 H3| | | |]; subst.
    apply (fun h => matches_star_digits_gen _ _ h eq_refl) in H1.
    apply matches_upto2 in H3 as [H3 Hl].
    destruct (allDigits_no_dot _ H3) as [Hc3 Ha3].
    assert (Hs2 : s2 = "" \/ s2 = ".").
    { unfold Opt in H2. inversion H2 as [| | |? ? ? Hc|? ? ? He| |]; subst.
      - inversion Hc as [|? c Hd| | | | |]; subst. apply isDot_eq in Hd. subst. auto.
      - inversion He. auto. }
    clear H Ht H2. destruct Hs2; subst s2; simpl.
    + assert (Hd : allDigits (s1 ++ s3) = true)
        by (rewrite allDigits_append, H1, H3; reflexivity).
      destruct (allDigits_no_dot _ Hd) as [-> ->]. simpl. lia.
    + clear Hn. induction s1 as [|c s1 IH]; simpl in *.
      * rewrite Hc3. lia.
      * apply andb_true_iff in H1 as [Hc H1].
        rewrite (isDigit_not_dot _ Hc). auto.
  - intros [Hc Hl].
    destruct (numericOnly_split _ Hn) as [H | (a & b & -> & Ha & Hb & Hcnt & Hb')].
    + rewrite <- (append_nil_r s). constructor; [now apply allDigits_matches_star|].
      change "" with ("" ++ ""). constructor.
      * apply MAltR. constructor.
      * apply matches_upto2. simpl. split; [reflexivity | lia].
    + constructor; [now apply allDigits_matches_star|].
      change (String "." b) with (String "." "" ++ b). constructor.
      * apply MAltL. now constructor.
      * apply matches_upto2. rewrite Hb in Hl. split; [|exact Hl].
        apply numericOnly_no_dot; [exact Hb' | lia].
Qed.

End AmountPattern.

(** ** Printing and reading decimal digits *)

Section Digits.

Lemma code_digitChar (d : Z) :
  (0 <= d < 10)%Z -> code (digitChar d) = Z.to_N (48 + d).
Proof.
  intros H. unfold code, digitChar. apply N_ascii_embedding. lia.
Qed.

Lemma isDigit_digitChar (d : Z) : (0 <= d < 10)%Z -> isDigit (digitChar d) = true.
Proof.
  intros H. unfold isDigit. rewrite (code_digitChar _ H).
  apply andb_true_iff. rewrite !N.leb_le. lia.
Qed.

Lemma digitValue_digitChar (d : Z) :
  (0 <= d < 10)%Z -> digitValue (digitChar d) = d.
Proof. intros H. unfold digitValue. rewrite (code_digitChar _ H). lia. Qed.

Lemma digitValue_range (c : ascii) :
  isDigit c = true -> (0 <= digitValue c < 10)%Z.
Proof.
  unfold isDigit, digitValue. rewrite andb_true_iff, !N.leb_le. lia.
Qed.

Lemma isDigit_not_space (c : ascii) : isDigit c = true -> isWhiteSpace c = false.
Proof.
  unfold isDigit, isWhiteSpace. rewrite andb_true_iff, !N.leb_le. intros [H1 H2].
  rewrite !orb_false_iff, andb_false_iff, !N.leb_gt, !N.eqb_neq. lia.
Qed.

Lemma isDigit_not_sign (c : ascii) :
  isDigit c = true -> isPlus c = false /\ isMinus c = false.
Proof.
  unfold isDigit, isPlus, isMinus. rewrite andb_true_iff, !N.leb_le.
  rewrite !N.eqb_neq. lia.
Qed.

Lemma digitsValue_append (a b : string) (acc : Z) :
  digitsValue acc (a ++ b) = digitsValue (digitsValue acc a) b.
Proof. revert acc. induction a as [|c a IH]; simpl; auto. Qed.

Lemma digitsValue_nonneg (s : string) (acc : Z) :
  allDigits s = true -> (0 <= acc)%Z -> (0 <= digitsValue acc s)%Z.
Proof.
  revert acc. induction s as [|c s IH]; cbn [allDigits digitsValue];
    intros acc Hd Ha; [exact Ha|].
  apply andb_true_iff in Hd as [Hc Hs]. apply IH; [exact Hs|].
  pose proof (digitValue_range _ Hc). lia.
Qed.

Lemma allDigits_digitsOf (f : nat) (n : Z) :
  (0 <= n)%Z -> allDigits (digitsOf f n) = true.
Proof.
  revert n. induction f as [|f IH]; intros n Hn; simpl; [reflexivity|].
  destruct (n <? 10)%Z eqn:E.
  - apply Z.ltb_lt in E. simpl. rewrite isDigit_digitChar by lia. reflexivity.
  - rewrite allDigits_append, IH by (apply Z.div_pos; lia). simpl.
    rewrite isDigit_digitChar; [reflexivity|].
    apply Z.mod_pos_bound. lia.
Qed.

(** Reading back the printed digits of [n] gives [n], when the fuel is
    enough for its digits. *)
Lemma digitsValue_digitsOf (f : nat) (n : Z) :
  (0 <= n < 2 ^ Z.of_nat f)%Z -> digitsValue 0 (digitsOf f n) = n.
Proof.
  revert n. induction f as [|f IH]; intros n Hn.
  - simpl in *. lia.
  - simpl digitsOf. destruct (n <? 10)%Z eqn:E.
    + apply Z.ltb_lt in E. cbn [digitsValue].
      rewrite digitValue_digitChar; lia.
    + apply Z.ltb_ge in E. rewrite digitsValue_append, IH.
      * cbn [digitsValue].
        rewrite digitValue_digitChar by (apply Z.mod_pos_bound; lia).
        symmetry. apply Z.div_mod. lia.
      * rewrite Nat2Z.inj_succ, Z.pow_succ_r in Hn by lia.
        split; [apply Z.div_pos; lia|].
        apply Z.div_lt_upper_bound; lia.
Qed.

(** More fuel than needed prints the same digits. *)
Lemma digitsOf_fuel (f g : nat) (n : Z) :
  (0 < n < 2 ^ Z.of_nat f)%Z -> (0 < n < 2 ^ Z.of_nat g)%Z ->
  digitsOf f n = digitsOf g n.
Proof.
  revert g n. induction f as [|f IH]; intros g n Hf Hg.
  - simpl in Hf. lia.
  - destruct g as [|g]; [simpl in Hg; lia|].
    simpl. destruct (n <? 10)%Z eqn:E; [reflexivity|].
    apply Z.ltb_ge in E. f_equal.
    rewrite Nat2Z.inj_succ, Z.pow_succ_r in Hf, Hg by lia.
    assert (0 < n / 10)%Z by (apply Z.div_str_pos; lia).
    apply IH; (split; [assumption | apply Z.div_lt_upper_bound; lia]).
Qed.

Lemma decimalString_fuel (n : Z) :
  (0 <= n)%Z -> (0 <= n < 2 ^ Z.of_nat (S (Z.to_nat (Z.log2 n))))%Z.
Proof.
  intros Hn. split; [exact Hn|].
  rewrite Nat2Z.inj_succ, Z2Nat.id by apply Z.log2_nonneg.
  destruct (Z.eq_dec n 0) as [->|Hz]; [reflexivity|].
  apply Z.log2_spec. lia.
Qed.

Lemma decimalString_small (n : Z) :
  (0 <= n < 10)%Z -> decimalString n = String (digitChar n) "".
Proof.
  intros H. unfold decimalString. simpl.
  destruct (n <? 10)%Z eqn:E; [reflexivity|]. apply Z.ltb_ge in E. lia.
Qed.

Lemma decimalString_step (n : Z) :
  (10 <= n)%Z ->
  decimalString n = decimalString (n / 10) ++ String (digitChar (n mod 10)) "".
Proof.
  intros H. unfold decimalString at 1. simpl.
  destruct (n <? 10)%Z eqn:E; [apply Z.ltb_lt in E; lia|].
  assert (Hq : (0 < n / 10)%Z) by (apply Z.div_str_pos; lia).
  f_equal. apply digitsOf_fuel;
    [|split; [exact Hq | apply decimalString_fuel; lia]].
  split; [exact Hq|].
  apply Z.div_lt_upper_bound; [lia|].
  assert (Hn : (0 < n)%Z) by lia.
  pose proof (Z.log2_spec n Hn) as [_ Hu].
  rewrite Z2Nat.id by apply Z.log2_nonneg.
  rewrite <- Z.add_1_r, Z.pow_add_r in Hu by (try apply Z.log2_nonneg; lia).
  lia.
Qed.

Lemma allDigits_decimalString (n : Z) :
  (0 <= n)%Z -> allDigits (decimalString n) = true.
Proof. intros H. now apply allDigits_digitsOf. Qed.

Lemma digitsValue_decimalString (n : Z) :
  (0 <= n)%Z -> digitsValue 0 (decimalString n) = n.
Proof. intros H. apply digitsValue_digitsOf. now apply decimalString_fuel. Qed.

Lemma decimalString_head (n : Z) :
  (0 <= n)%Z -> exists c r, decimalString n = String c r /\ isDigit c = true.
Proof.
  intros H. pose proof (allDigits_decimalString n H) as Hd.
  unfold decimalString in *. simpl in *.
  destruct (n <? 10)%Z.
  - simpl in Hd. rewrite andb_true_r in Hd. eauto.
  - destruct (digitsOf _ (n / 10)) as [|c r]; simpl in *.
    + rewrite andb_true_r in Hd. eauto.
    + apply andb_true_iff in Hd as [Hc _]. eauto.
Qed.

End Digits.

(** ** Rounding to the cent *)

Section Cents.

Open Scope Q_scope.

Lemma this_Q2Qc (q : Q) : this (Q2Qc q) == q.
Proof. simpl. apply Qred_correct. Qed.

Lemma nearestCents_Q (a : Qc) :
  nearestCents a = Qfloor (this a * 100 + (1 # 2)).
Proof.
  unfold nearestCents. apply Qfloor_comp.
  unfold Qcplus, Qcmult. rewrite !this_Q2Qc. reflexivity.
Qed.

Lemma Qfloor_unique (x : Q) (n : Z) :
  inject_Z n <= x -> x < inject_Z (n + 1) -> Qfloor x = n.
Proof.
  intros H1 H2. pose proof (Qfloor_le x). pose proof (Qlt_floor x).
  assert (inject_Z (Qfloor x) < inject_Z (n + 1)) by lra.
  assert (inject_Z n < inject_Z (Qfloor x + 1)) by lra.
  rewrite <- Zlt_Qlt in *. lia.
Qed.

Lemma Qc_ltb_true (a b : Qc) : Qc_ltb a b = true <-> this a < this b.
Proof.
  unfold Qc_ltb, Qccompare. rewrite Qlt_alt.
  destruct (this a ?= this b); split; congruence.
Qed.

Lemma Qc_ltb_false (a b : Qc) : Qc_ltb a b = false <-> this b <= this a.
Proof.
  rewrite <- not_true_iff_false, Qc_ltb_true. split.
  - apply Qnot_lt_le.
  - intros H1 H2. apply (Qlt_not_le _ _ H2 H1).
Qed.

Lemma Qc_sign_neg_false (q : Qc) : Qc_sign_neg q = false <-> 0 <= this q.
Proof. unfold Qc_sign_neg. now rewrite Qc_ltb_false. Qed.

Lemma lt_one_false (q : Qc) : lt (Fin q) (of_Z 1) = false <-> 1 <= this q.
Proof. unfold lt, of_Z. now rewrite Qc_ltb_false. Qed.

Lemma lt_one_true (q : Qc) : lt (Fin q) (of_Z 1) = true <-> this q < 1.
Proof. unfold lt, of_Z. now rewrite Qc_ltb_true. Qed.

Lemma nearestCents_nonneg (q : Qc) : 0 <= this q -> (0 <= nearestCents q)%Z.
Proof.
  intros H. rewrite nearestCents_Q.
  refine (Qfloor_resp_le 0 _ _). lra.
Qed.

Lemma nearestCents_ge_one (q : Qc) : 1 <= this q -> (100 <= nearestCents q)%Z.
Proof.
  intros H. rewrite nearestCents_Q.
  refine (Qfloor_resp_le 100 _ _). lra.
Qed.

Lemma nearestCents_lt_one (q : Qc) : this q < 1 -> (nearestCents q <= 100)%Z.
Proof.
  intros H. rewrite nearestCents_Q.
  refine (Qfloor_resp_le _ (201 # 2) _). lra.
Qed.

Lemma this_round2 (q : Qc) : this (round2 q) == nearestCents q # 100.
Proof. unfold round2. apply this_Q2Qc. Qed.

Lemma round2_nonneg (q : Qc) : 0 <= this q -> 0 <= this (round2 q).
Proof.
  intros H. rewrite this_round2. pose proof (nearestCents_nonneg q H).
  unfold Qle. simpl. lia.
Qed.

Lemma round2_ge_one (q : Qc) : 1 <= this q -> 1 <= this (round2 q).
Proof.
  intros H. rewrite this_round2. pose proof (nearestCents_ge_one q H).
  unfold Qle. simpl. lia.
Qed.

Lemma round2_le_one (q : Qc) : this q < 1 -> this (round2 q) <= 1.
Proof.
  intros H. rewrite this_round2. pose proof (nearestCents_lt_one q H).
  unfold Qle. simpl. lia.
Qed.

(** A number of cents is its own nearest number of cents. *)
Lemma nearestCents_cents (n : Z) : nearestCents (Q2Qc (n # 100)) = n.
Proof.
  rewrite nearestCents_Q. apply Qfloor_unique; rewrite this_Q2Qc.
  - unfold Qle. simpl. lia.
  - unfold Qlt. simpl. lia.
Qed.

Lemma nearestCents_round2 (q : Qc) : nearestCents (round2 q) = nearestCents q.
Proof. apply nearestCents_cents. Qed.

Lemma round2_idempotent (q : Qc) : round2 (round2 q) = round2 q.
Proof. unfold round2 at 1. now rewrite nearestCents_round2. Qed.

Lemma Qc_max_one (q : Qc) : 1 <= this q -> Qc_max (Q2Qc 1) q = q.
Proof.
  intros H. unfold Qc_max. destruct (Qc_ltb (Q2Qc 1) q) eqn:E; [reflexivity|].
  apply Qc_ltb_false in E. apply Qc_is_canon. simpl in *. lra.
Qed.

Lemma Qc_max_below (q : Qc) : this q <= 1 -> Qc_max (Q2Qc 1) q = Q2Qc 1.
Proof.
  intros H. unfold Qc_max. destruct (Qc_ltb (Q2Qc 1) q) eqn:E; [|reflexivity].
  apply Qc_ltb_true in E. apply Qc_is_canon. simpl in *. lra.
Qed.

End Cents.

(** ** [toFixed(2)] and [parseFloat] of its result *)

Section FixedNotation.

Lemma decimalString_cents (n : Z) :
  (100 <= n)%Z ->
  decimalString n =
  decimalString (n / 100) ++
  String (digitChar (n / 10 mod 10)) (String (digitChar (n mod 10)) "").
Proof.
  intros H. rewrite (decimalString_step n) by lia.
  assert (H10 : (10 <= n / 10)%Z) by (apply Z.div_le_lower_bound; lia).
  rewrite (decimalString_step (n / 10)) by exact H10.
  rewrite Z.div_div by lia. rewrite append_assoc. reflexivity.
Qed.

(** [toFixed(2)] of a number that is not negative: the digits of the whole
    part, a dot and two digits. *)
Lemma toFixed2_nonneg (q : Qc) :
  Qc_sign_neg q = false -> toFixed2 (Fin q) = centsNotation (nearestCents q).
Proof.
  intros Hs. pose proof (proj1 (Qc_sign_neg_false q) Hs) as Hq.
  pose proof (nearestCents_nonneg q Hq) as Hn.
  unfold toFixed2, Qc_abs, centsNotation. rewrite Hs.
  set (n := nearestCents q) in *. cbn [append].
  destruct (Z_lt_le_dec n 10) as [H10 | H10].
  - rewrite (decimalString_small n) by lia.
    rewrite (Z.div_small n 100), (Z.div_small n 10), (Z.mod_small n 10) by lia.
    reflexivity.
  - destruct (Z_lt_le_dec n 100) as [H100 | H100].
    + rewrite (decimalString_step n) by lia.
      assert (Hd : (0 <= n / 10 < 10)%Z)
        by (split; [apply Z.div_pos; lia | apply Z.div_lt_upper_bound; lia]).
      rewrite (decimalString_small (n / 10)) by exact Hd.
      rewrite (Z.div_small n 100), (Z.mod_small (n / 10) 10) by lia.
      reflexivity.
    + rewrite (decimalString_cents n H100).
      set (D := decimalString (n / 100)).
      set (t := String (digitChar (n / 10 mod 10)) (String (digitChar (n mod 10)) "")).
      assert (HD : exists c r, D = String c r).
      { destruct (decimalString_head (n / 100)) as (c & r & E & _);
          [apply Z.div_pos; lia | eauto]. }
      destruct HD as (c & r & HD).
      assert (Hlen : String.length (D ++ t) = S (S (String.length D)))
        by (rewrite length_append; unfold t; simpl; lia).
      rewrite Hlen.
      replace (S (S (String.length D)) <=? 2)%nat with false
        by (symmetry; apply Nat.leb_gt; rewrite HD; simpl; lia).
      cbv zeta. rewrite !Hlen.
      replace (S (S (String.length D)) - 2)%nat with (String.length D) by lia.
      rewrite substring_append_l, substring_append_r. reflexivity.
Qed.

Lemma spanDigits_append (a b : string) (x : ascii) :
  allDigits a = true -> isDigit x = false ->
  spanDigits (a ++ String x b) = (a, String x b).
Proof.
  intros Ha Hx. induction a as [|c a IH]; simpl in *.
  - now rewrite Hx.
  - apply andb_true_iff in Ha as [Hc Ha]. now rewrite Hc, IH.
Qed.

Lemma spanDigits_all (a : string) :
  allDigits a = true -> spanDigits a = (a, "").
Proof.
  intros Ha. induction a as [|c a IH]; simpl in *; [reflexivity|].
  apply andb_true_iff in Ha as [Hc Ha]. now rewrite Hc, IH.
Qed.

Lemma prefix_Infinity_digit (c : ascii) (r : string) :
  isDigit c = true -> prefix "Infinity" (String c r) = false.
Proof.
  intros Hc.
  change (prefix "Infinity" (String c r))
    with (if ascii_dec "I" c then prefix "nfinity" r else false).
  destruct (ascii_dec "I" c) as [<-|]; [discriminate|reflexivity].
Qed.

(** Reading digits, a dot and digits: the value of all the digits, scaled
    by the number of those after the dot. *)
Lemma parseFloat_decimal (ip fp : string) :
  allDigits ip = true -> ip <> "" -> allDigits fp = true ->
  parseFloat (ip ++ String "." fp) = Fin (decimalValue ip fp 0).
Proof.
  intros Hi Hne Hf. destruct ip as [|c r]; [congruence|].
  simpl in Hi. apply andb_true_iff in Hi as [Hc Hr].
  unfold parseFloat. cbn [append trimStart].
  rewrite (isDigit_not_space _ Hc).
  destruct (isDigit_not_sign _ Hc) as [-> ->].
  unfold parseUnsigned. rewrite (prefix_Infinity_digit _ _ Hc).
  change (String c (r ++ String "." fp)) with (String c r ++ String "." fp).
  rewrite spanDigits_append; [|simpl; now rewrite Hc, Hr | reflexivity].
  unfold fractionPart. change (isDot ".") with true. cbv iota.
  rewrite (spanDigits_all _ Hf). reflexivity.
Qed.

Lemma decimalValue_cents (ip : string) (c1 c0 : ascii) :
  decimalValue ip (String c1 (String c0 "")) 0 =
  Q2Qc (digitsValue 0 (ip ++ String c1 (String c0 "")) # 100).
Proof.
  unfold decimalValue. apply Q2Qc_eq_iff.
  set (M := digitsValue 0 _). simpl. unfold Qeq. simpl. lia.
Qed.

Lemma parseFloat_centsNotation (n : Z) :
  (0 <= n)%Z -> parseFloat (centsNotation n) = Fin (Q2Qc (n # 100)).
Proof.
  intros Hn. unfold centsNotation.
  assert (Hq : (0 <= n / 100)%Z) by (apply Z.div_pos; lia).
  assert (H1 : (0 <= n / 10 mod 10 < 10)%Z) by (apply Z.mod_pos_bound; lia).
  assert (H0 : (0 <= n mod 10 < 10)%Z) by (apply Z.mod_pos_bound; lia).
  rewrite parseFloat_decimal.
  - rewrite decimalValue_cents, digitsValue_append.
    rewrite (digitsValue_decimalString _ Hq). cbn [digitsValue].
    rewrite !digitValue_digitChar by assumption.
    do 2 f_equal. f_equal.
    pose proof (Z.div_mod n 10 ltac:(lia)).
    pose proof (Z.div_mod (n / 10) 10 ltac:(lia)).
    rewrite Z.div_div in * by lia. simpl (10 * 10)%Z in *. lia.
  - now apply allDigits_decimalString.
  - destruct (decimalString_head _ Hq) as (c & r & E & _). congruence.
  - simpl. now rewrite !isDigit_digitChar.
Qed.

(** Reading what [toFixed(2)] printed gives the number rounded to the cent. *)
Lemma parseFloat_toFixed2 (q : Qc) :
  Qc_sign_neg q = false -> parseFloat (toFixed2 (Fin q)) = Fin (round2 q).
Proof.
  intros Hs. rewrite (toFixed2_nonneg _ Hs). apply parseFloat_centsNotation.
  apply nearestCents_nonneg. now apply Qc_sign_neg_false.
Qed.

(** Printing the rounded number prints the same text again. *)
Lemma toFixed2_round2 (q : Qc) :
  Qc_sign_neg q = false -> toFixed2 (Fin (round2 q)) = toFixed2 (Fin q).
Proof.
  intros Hs. rewrite (toFixed2_nonneg _ Hs).
  rewrite toFixed2_nonneg, nearestCents_round2; [reflexivity|].
  apply Qc_sign_neg_false, round2_nonneg. now apply Qc_sign_neg_false.
Qed.

Lemma toFixed2_not_empty (x : number) : isEmpty (toFixed2 x) = false.
Proof.
  destruct x as [| | |q]; try reflexivity.
  unfold toFixed2. destruct (Qc_sign_neg q); [reflexivity|].
  cbn [append]. destruct (substring 0 _ _); reflexivity.
Qed.

End FixedNotation.

(** ** What [parseFloat] reads in a text of digits and dots *)

Section NumericTexts.

Lemma numeric_char (c : ascii) :
  isDigit c || isDot c = true ->
  isWhiteSpace c = false /\ isPlus c = false /\ isMinus c = false /\
  "I"%char <> c.
Proof.
  intros H. apply orb_true_iff in H as [H | H].
  - split; [now apply isDigit_not_space|].
    destruct (isDigit_not_sign _ H). repeat split; auto.
    intros <-. discriminate.
  - apply isDot_eq in H. subst c. repeat split; try reflexivity. discriminate.
Qed.

Lemma parseFloat_numeric_head (c : ascii) (u : string) :
  isDigit c || isDot c = true ->
  parseFloat (String c u) =
  let (ip, r1) := spanDigits (String c u) in
  let (fp, r2) := fractionPart r1 in
  if isEmpty ip && isEmpty fp then NaN
  else Fin (decimalValue ip fp (exponentPart r2)).
Proof.
  intros H. destruct (numeric_char _ H) as (Hw & Hp & Hm & HI).
  unfold parseFloat. cbn [trimStart]. rewrite Hw, Hp, Hm.
  unfold parseUnsigned.
  change (prefix "Infinity" (String c u))
    with (if ascii_dec "I" c then prefix "nfinity" u else false).
  destruct (ascii_dec "I" c); [contradiction | reflexivity].
Qed.

(** A text of digits and dots reads as a finite number or not at all. *)
Lemma parseFloat_numericOnly (s : string) :
  numericOnly s = true ->
  parseFloat s = NaN \/ exists q, parseFloat s = Fin q.
Proof.
  destruct s as [|c u]; [now left|].
  cbn [numericOnly]. rewrite andb_true_iff. intros [Hc _].
  rewrite (parseFloat_numeric_head _ _ Hc).
  destruct (spanDigits (String c u)) as [ip r1].
  destruct (fractionPart r1) as [fp r2].
  destruct (isEmpty ip && isEmpty fp); eauto.
Qed.


Lemma numericOnly_allDigits (s : string) :
  allDigits s = true -> numericOnly s = true.
Proof.
  induction s as [|c s IH]; simpl; [reflexivity|].
  rewrite andb_true_iff. intros [-> Hs]. simpl. auto.
Qed.

Lemma numericOnly_append (a b : string) :
  numericOnly (a ++ b) = numericOnly a && numericOnly b.
Proof.
  induction a as [|c a IH]; simpl; [reflexivity|].
  now rewrite IH, andb_assoc.
Qed.

Lemma numericOnly_centsNotation (n : Z) :
  (0 <= n)%Z -> numericOnly (centsNotation n) = true.
Proof.
  intros Hn. unfold centsNotation. rewrite numericOnly_append.
  rewrite numericOnly_allDigits
    by (apply allDigits_decimalString, Z.div_pos; lia).
  cbn [numericOnly andb]. change (isDot ".") with true.
  rewrite !isDigit_digitChar by (apply Z.mod_pos_bound; lia).
  rewrite orb_true_r. reflexivity.
Qed.

Lemma numericOnly_toFixed2 (q : Qc) :
  Qc_sign_neg q = false -> numericOnly (toFixed2 (Fin q)) = true.
Proof.
  intros Hs. rewrite (toFixed2_nonneg _ Hs). apply numericOnly_centsNotation.
  apply nearestCents_nonneg. now apply Qc_sign_neg_false.
Qed.

End NumericTexts.

(** ** The base amount *)

Section BaseAmount.

Lemma parseFloat_empty : parseFloat "" = NaN.
Proof. reflexivity. Qed.

Lemma parseFloat_one : parseFloat "1.00" = of_Z 1.
Proof. vm_compute. apply f_equal, Qc_is_canon. reflexivity. Qed.

Lemma toFixed2_one : toFixed2 (of_Z 1) = "1.00".
Proof. reflexivity. Qed.

Lemma lt_one_one : lt (of_Z 1) (of_Z 1) = false.
Proof. reflexivity. Qed.

Lemma ge_one_true (x : number) :
  ge x (of_Z 1) = true <-> isNaN x = false /\ lt x (of_Z 1) = false.
Proof.
  destruct x as [| | |q]; cbn [ge isNaN of_Z].
  - split; [discriminate | intros [H _]; discriminate].
  - split; auto.
  - split; [discriminate | intros [_ H]; discriminate].
  - rewrite negb_true_iff. split; [auto | now intros [_ H]].
Qed.

(** What a commit does, from what the text reads as. *)
Lemma handleBaseAmountBlur_value (st : state) :
  let st' := handleBaseAmountBlur st in
  baseAmount st' = committedAmount (parseFloat (baseAmountInput st)) /\
  baseAmountInput st' = toFixed2 (baseAmount st') /\
  selectedTip st' = selectedTip st /\
  customTip st' = customTip st /\
  customTipDisplay st' = customTipDisplay st.
Proof.
  unfold handleBaseAmountBlur.
  destruct (isEmpty (baseAmountInput st)) eqn:Ee.
  - apply isEmpty_true in Ee. rewrite Ee. cbn. auto.
  - cbn [orb]. destruct (parseFloat (baseAmountInput st)) as [| | |q] eqn:Ev.
    + cbn. auto.
    + cbn. auto.
    + cbn. auto.
    + cbn [isNaN]. cbv iota zeta. destruct (lt (Fin q) (of_Z 1)) eqn:El.
      * cbn [baseAmount baseAmountInput selectedTip customTip customTipDisplay
             committedAmount].
        apply lt_one_true in El.
        rewrite Qc_max_below by (apply round2_le_one; exact El).
        repeat split; reflexivity.
      * cbn [baseAmount baseAmountInput selectedTip customTip customTipDisplay
             committedAmount].
        apply lt_one_false in El.
        assert (Hs : Qc_sign_neg q = false) by (apply Qc_sign_neg_false; lra).
        rewrite (parseFloat_toFixed2 _ Hs), (toFixed2_round2 _ Hs).
        rewrite Qc_max_one by (apply round2_ge_one; exact El).
        repeat split; reflexivity.
Qed.

Lemma committedAmount_ge_one (v : number) :
  ge (committedAmount v) (of_Z 1) = true.
Proof.
  destruct v as [| | |q]; try reflexivity.
  unfold committedAmount. apply ge_one_true. split; [reflexivity|].
  apply lt_one_false. unfold Qc_max.
  destruct (Qc_ltb (Q2Qc 1) (round2 q)) eqn:E.
  - apply Qc_ltb_true in E. simpl in *. lra.
  - simpl. lra.
Qed.

(** A committed amount reads back as itself and is printed as it was. *)
Lemma committedAmount_stable (v : number) :
  let t := toFixed2 (committedAmount v) in
  parseFloat t = committedAmount v /\ isEmpty t = false.
Proof.
  split; [|apply toFixed2_not_empty].
  destruct v as [| | |q]; cbn [committedAmount];
    try (rewrite toFixed2_one; exact parseFloat_one);
    try reflexivity.
  set (m := Qc_max (Q2Qc 1) (round2 q)).
  assert (Hm : (1 <= this m)%Q).
  { pose proof (committedAmount_ge_one (Fin q)) as H.
    apply ge_one_true in H as [_ H]. now apply lt_one_false in H. }
  assert (Hs : Qc_sign_neg m = false) by (apply Qc_sign_neg_false; lra).
  rewrite (parseFloat_toFixed2 _ Hs). f_equal.
  unfold m, Qc_max. destruct (Qc_ltb (Q2Qc 1) (round2 q)).
  - apply round2_idempotent.
  - apply Qc_is_canon. reflexivity.
Qed.

Lemma committedAmount_idempotent (v : number) :
  committedAmount (committedAmount v) = committedAmount v.
Proof.
  destruct v as [| | |q]; cbn [committedAmount];
    try (unfold of_Z; cbn [committedAmount];
         apply f_equal, Qc_is_canon; reflexivity);
    try reflexivity.
  f_equal. unfold Qc_max. destruct (Qc_ltb (Q2Qc 1) (round2 q)) eqn:E.
  - rewrite round2_idempotent, E. reflexivity.
  - replace (round2 (Q2Qc 1)) with (Q2Qc 1)
      by (apply Qc_is_canon; reflexivity).
    reflexivity.
Qed.

End BaseAmount.

Section BaseAmountClaims.

Lemma state_ext (a b : state) :
  baseAmount a = baseAmount b -> baseAmountInput a = baseAmountInput b ->
  selectedTip a = selectedTip b -> customTip a = customTip b ->
  customTipDisplay a = customTipDisplay b -> a = b.
Proof. destruct a, b; simpl; intros; subst; reflexivity. Qed.


Lemma accepted_numericOnly (s : string) : accepted s -> numericOnly s = true.
Proof. intros [Hc _]. rewrite <- Hc. apply removeAll_numericOnly. Qed.

(** The accepted texts are those of digits and dots with at most one dot
    and at most two digits after it. *)
Lemma accepted_iff (s : string) :
  accepted s <->
  numericOnly s = true /\ (countDots s <= 1)%nat /\
  (String.length (afterDot s) <= 2)%nat.
Proof.
  split.
  - intros H. pose proof (accepted_numericOnly s H) as Hn.
    split; [exact Hn|]. apply (test_amountPattern s Hn). apply H.
  - intros (Hn & Hd). split; [now apply removeAll_fixed|].
    now apply (test_amountPattern s Hn).
Qed.

(** A committed amount that is finite is a number of cents, at least one
    hundred of them, and is printed in the two-decimal notation. *)
Lemma committedAmount_cents (v : number) :
  v <> PInf ->
  exists n, (100 <= n)%Z /\ committedAmount v = Fin (Q2Qc (n # 100)) /\
            toFixed2 (committedAmount v) = centsNotation n.
Proof.
  intros Hv.
  assert (Hone : exists n, (100 <= n)%Z /\ of_Z 1 = Fin (Q2Qc (n # 100)) /\
                           toFixed2 (of_Z 1) = centsNotation n).
  { exists 100%Z. split; [lia|]. split; [|reflexivity].
    unfold of_Z. apply f_equal, Qc_is_canon. reflexivity. }
  destruct v as [| | |q]; cbn [committedAmount]; try exact Hone; [congruence|].
  unfold Qc_max. destruct (Qc_ltb (Q2Qc 1) (round2 q)) eqn:E.
  - apply Qc_ltb_true in E. exists (nearestCents q).
    assert (H1 : (1 <= this (round2 q))%Q)
      by (change (this (Q2Qc 1)) with 1%Q in E; lra).
    assert (Hn : (100 <= nearestCents q)%Z).
    { rewrite this_round2 in H1. unfold Qle in H1. simpl in H1. lia. }
    split; [exact Hn|]. split; [reflexivity|].
    rewrite toFixed2_nonneg, nearestCents_round2; [reflexivity|].
    apply Qc_sign_neg_false. lra.
  - exact Hone.
Qed.


(** C8. [commitBaseAmount()] is idempotent: committing twice in a row
    leaves exactly the state that committing once leaves. *)
Theorem C8_commit_base_amount_idempotent (st : state) :
  handleBaseAmountBlur (handleBaseAmountBlur st) = handleBaseAmountBlur st.
Proof.
  destruct (handleBaseAmountBlur_value st) as (Hb & Ht & Hs & Hc & Hd).
  destruct (handleBaseAmountBlur_value (handleBaseAmountBlur st))
    as (Hb' & Ht' & Hs' & Hc' & Hd').
  cbv zeta in *.
  assert (E : baseAmount (handleBaseAmountBlur (handleBaseAmountBlur st)) =
              baseAmount (handleBaseAmountBlur st)).
  { rewrite Hb', Ht, Hb.
    destruct (committedAmount_stable (parseFloat (baseAmountInput st))) as [-> _].
    apply committedAmount_idempotent. }
  apply state_ext; try assumption.
  now rewrite Ht', E, Ht.
Qed.

End BaseAmountClaims.

(** ** Frame conditions of the handlers *)

Section Frames.

Lemma handleBaseAmountChange_frame (st : state) (value : string) :
  let st' := handleBaseAmountChange st value in
  selectedTip st' = selectedTip st /\ customTip st' = customTip st /\
  customTipDisplay st' = customTipDisplay st.
Proof.
  unfold handleBaseAmountChange.
  destruct (_ || _); [|auto].
  destruct (_ && _); [cbn; auto|].
  destruct (isEmpty _); cbn; auto.
Qed.

Lemma handleTipSelect_frame (st : state) (p : number) :
  let st' := handleTipSelect st p in
  baseAmount st' = baseAmount st /\ baseAmountInput st' = baseAmountInput st /\
  customTip st' = "" /\ customTipDisplay st' = "".
Proof. cbn. auto. Qed.

Lemma handleCustomTipChange_frame (st : state) (value : string) :
  let st' := handleCustomTipChange st value in
  baseAmount st' = baseAmount st /\ baseAmountInput st' = baseAmountInput st.
Proof.
  unfold handleCustomTipChange.
  destruct (_ || _); [|auto].
  destruct (_ && _); [cbn; auto|].
  destruct (isEmpty _); cbn; auto.
Qed.

Lemma handleCustomTipBlur_frame (st : state) :
  let st' := handleCustomTipBlur st in
  baseAmount st' = baseAmount st /\ baseAmountInput st' = baseAmountInput st /\
  selectedTip st' = selectedTip st.
Proof.
  unfold handleCustomTipBlur.
  destruct (truthy _); [|cbn; auto].
  destruct (lt _ _); cbn; auto.
Qed.

Lemma truthy_true (s : string) : truthy s = true <-> s <> "".
Proof. unfold truthy. rewrite negb_true_iff. apply isEmpty_false. Qed.

Lemma truthy_false (s : string) : truthy s = false <-> s = "".
Proof. unfold truthy. rewrite negb_false_iff. apply isEmpty_true. Qed.

Lemma reachable_run (ops : list op) : reachable (run initial ops).
Proof.
  unfold run. generalize reachable_initial. generalize initial.
  induction ops as [|o ops IH]; intros st H; simpl; [exact H|].
  apply IH. now constructor.
Qed.

Lemma run_reachable (st : state) :
  reachable st -> exists ops, st = run initial ops.
Proof.
  induction 1 as [|st o _ [ops ->]].
  - now exists [].
  - exists (ops ++ [o])%list. unfold run. now rewrite fold_left_app.
Qed.

End Frames.

(** ** Invariants of the reachable states *)

Section Invariants.

Lemma countDots_allDigits_dot (a b : string) :
  allDigits a = true -> allDigits b = true ->
  countDots (a ++ String "." b) = 1%nat.
Proof.
  intros Ha Hb. induction a as [|c a IH]; simpl in *.
  - now destruct (allDigits_no_dot _ Hb) as [-> _].
  - apply andb_true_iff in Ha as [Hc Ha].
    rewrite (isDigit_not_dot _ Hc). auto.
Qed.

Lemma countDots_centsNotation (n : Z) :
  (0 <= n)%Z -> countDots (centsNotation n) = 1%nat.
Proof.
  intros Hn. unfold centsNotation. apply countDots_allDigits_dot.
  - apply allDigits_decimalString, Z.div_pos; lia.
  - simpl. now rewrite !isDigit_digitChar by (apply Z.mod_pos_bound; lia).
Qed.

Lemma baseInvariant_initial : baseInvariant initial.
Proof.
  constructor; try reflexivity.
  - intros _. vm_compute. apply f_equal, Qc_is_canon. reflexivity.
  - discriminate.
Qed.

Lemma baseInvariant_change (st : state) (value : string) :
  baseInvariant st -> baseInvariant (handleBaseAmountChange st value).
Proof.
  intros I. unfold handleBaseAmountChange.
  set (c := removeAll nonNumeric value).
  assert (Hn : numericOnly c = true) by apply removeAll_numericOnly.
  destruct (isEmpty c || test amountPattern c) eqn:Ea; [|exact I].
  assert (Hd : (countDots c <= 1)%nat).
  { apply orb_true_iff in Ea as [Ee | Et].
    - apply isEmpty_true in Ee. rewrite Ee. simpl. lia.
    - now apply (test_amountPattern c Hn) in Et. }
  destruct (truthy c && negb (isNaN (parseFloat c))) eqn:Ep.
  - apply andb_true_iff in Ep as [Ht Hp]. apply negb_true_iff in Hp.
    constructor; cbn; auto.
    + destruct (parseFloat_numericOnly c Hn) as [E | [q E]]; rewrite E in *;
        [discriminate | reflexivity].
    + intros E. apply truthy_true in Ht. contradiction.
  - destruct (isEmpty c) eqn:Ee.
    + constructor; cbn; auto.
      apply isEmpty_true in Ee. rewrite Ee. discriminate.
    + constructor; cbn; auto.
      * apply I.
      * unfold truthy in Ep. rewrite Ee in Ep. cbn in Ep.
        apply negb_false_iff in Ep. congruence.
      * intros E. rewrite E in Ee. discriminate.
Qed.

Lemma baseInvariant_blur (st : state) :
  baseInvariant st -> baseInvariant (handleBaseAmountBlur st).
Proof.
  intros I. destruct (handleBaseAmountBlur_value st) as (Hb & Ht & _).
  cbv zeta in *.
  destruct (committedAmount_cents (parseFloat (baseAmountInput st)))
    as (n & Hn & Hc & Hf).
  { destruct (parseFloat_numericOnly _ (base_text_numeric _ I)) as [-> | [q ->]];
      discriminate. }
  destruct (committedAmount_stable (parseFloat (baseAmountInput st))) as [Hs He].
  rewrite Hb in Ht. rewrite Hf in Ht.
  constructor.
  - rewrite Ht. apply numericOnly_centsNotation. lia.
  - rewrite Ht, countDots_centsNotation; lia.
  - rewrite Hb, Hc. reflexivity.
  - intros _. rewrite Ht, <- Hf, Hb. symmetry. exact Hs.
  - intros E. rewrite Ht, <- Hf in E. rewrite E in He. discriminate.
Qed.

Lemma baseInvariant_frame (st st' : state) :
  baseAmount st' = baseAmount st -> baseAmountInput st' = baseAmountInput st ->
  baseInvariant st -> baseInvariant st'.
Proof.
  intros Hb Ht I. destruct I. constructor; rewrite ?Hb, ?Ht; assumption.
Qed.

(** In every reachable state the base amount is finite and follows the
    editable text. *)
Lemma reachable_baseInvariant (st : state) : reachable st -> baseInvariant st.
Proof.
  induction 1 as [|st o _ IH]; [exact baseInvariant_initial|].
  destruct o as [text| |p|text|]; cbn [step].
  - now apply baseInvariant_change.
  - now apply baseInvariant_blur.
  - destruct (handleTipSelect_frame st p) as (Hb & Ht & _).
    exact (baseInvariant_frame _ _ Hb Ht IH).
  - destruct (handleCustomTipChange_frame st text) as (Hb & Ht).
    exact (baseInvariant_frame _ _ Hb Ht IH).
  - destruct (handleCustomTipBlur_frame st) as (Hb & Ht & _).
    exact (baseInvariant_frame _ _ Hb Ht IH).
Qed.

End Invariants.

Section TipInvariant.

Ltac fields :=
  cbn [baseAmount baseAmountInput selectedTip customTip customTipDisplay].

Lemma ge_toFixed2 (v : number) :
  ge v (of_Z 1) = true -> ge (parseFloat (toFixed2 v)) (of_Z 1) = true.
Proof.
  intros H. apply ge_one_true in H as [Hn Hl].
  destruct v as [| | |q]; try discriminate; [reflexivity|].
  apply lt_one_false in Hl.
  assert (Hs : Qc_sign_neg q = false) by (apply Qc_sign_neg_false; lra).
  rewrite (parseFloat_toFixed2 _ Hs). apply ge_one_true. split; [reflexivity|].
  apply lt_one_false. now apply round2_ge_one.
Qed.

Lemma tipInvariant_frame (st st' : state) :
  selectedTip st' = selectedTip st -> customTip st' = customTip st ->
  tipInvariant st -> tipInvariant st'.
Proof.
  intros Hs Hc I. destruct I. constructor; rewrite ?Hs, ?Hc; assumption.
Qed.

Lemma tipInvariant_cleared (st : state) : customTip st = "" -> tipInvariant st.
Proof. intros E. constructor; intros H; contradiction. Qed.

Lemma tipInvariant_change (st : state) (value : string) :
  tipInvariant st -> tipInvariant (handleCustomTipChange st value).
Proof.
  intros I. unfold handleCustomTipChange.
  set (c := removeAll nonNumeric value).
  destruct (isEmpty c || test amountPattern c); [|exact I].
  destruct (negb (isNaN (parseFloat c)) && ge (parseFloat c) (of_Z 1)) eqn:Ep.
  - apply andb_true_iff in Ep as [_ Hg]. constructor; fields; auto.
  - destruct (isEmpty c).
    + now apply tipInvariant_cleared.
    + now apply (tipInvariant_frame st).
Qed.

Lemma tipInvariant_blur (st : state) :
  tipInvariant st -> tipInvariant (handleCustomTipBlur st).
Proof.
  intros I. unfold handleCustomTipBlur.
  destruct (truthy (customTip st)) eqn:Et.
  - apply truthy_true in Et.
    pose proof (tip_exclusive _ I Et) as Hs.
    pose proof (tip_minimum _ I Et) as Hg.
    destruct (lt (parseFloat (customTip st)) (of_Z 1)).
    + constructor; fields; intros _; [exact Hs|].
      rewrite parseFloat_one. reflexivity.
    + constructor; fields; intros _; [exact Hs|]. now apply ge_toFixed2.
  - now apply (tipInvariant_frame st).
Qed.

(** In every reachable state an active custom tip excludes a preset and is
    at least one. *)
Lemma reachable_tipInvariant (st : state) : reachable st -> tipInvariant st.
Proof.
  induction 1 as [|st o _ IH]; [now apply tipInvariant_cleared|].
  destruct o as [text| |p|text|]; cbn [step].
  - destruct (handleBaseAmountChange_frame st text) as (Hs & Hc & _).
    exact (tipInvariant_frame _ _ Hs Hc IH).
  - destruct (handleBaseAmountBlur_value st) as (_ & _ & Hs & Hc & _).
    exact (tipInvariant_frame _ _ Hs Hc IH).
  - now apply tipInvariant_cleared.
  - now apply tipInvariant_change.
  - now apply tipInvariant_blur.
Qed.

End TipInvariant.

Section TipClaims.

(** C10. In every reachable state the active custom tip value is empty or
    reads as a number that is at least 1.00, so the clamping branch of
    [commitCustomTip()] is never taken: the commit reformats an active
    custom tip or clears the display text.  [setCustomTipText] changes the
    active value only to a text that reads as at least 1.00, or to the
    empty text. *)
Theorem C10_custom_tip_clamp_unreachable :
  (forall st : state,
     reachable st ->
     (customTip st = "" \/
      ge (parseFloat (customTip st)) (of_Z 1) = true) /\
     (truthy (customTip st) && lt (parseFloat (customTip st)) (of_Z 1) = false) /\
     handleCustomTipBlur st = reformatOrClear st) /\
  (forall (st : state) (text : string),
     let st' := handleCustomTipChange st text in
     customTip st' = customTip st \/
     customTip st' = "" \/
     (customTip st' = removeAll nonNumeric text /\
      ge (parseFloat (customTip st')) (of_Z 1) = true)).
Proof.
  split.
  - intros st R. pose proof (reachable_tipInvariant st R) as I.
    destruct (truthy (customTip st)) eqn:Et.
    + apply truthy_true in Et. pose proof (tip_minimum _ I Et) as Hg.
      pose proof (proj1 (ge_one_true _) Hg) as [_ Hl].
      split; [now right|]. split; [now rewrite Hl|].
      unfold handleCustomTipBlur, reformatOrClear.
      apply truthy_true in Et. rewrite Et, Hl. reflexivity.
    + split; [left; now apply truthy_false|]. split; [reflexivity|].
      unfold handleCustomTipBlur, reformatOrClear. now rewrite Et.
  - intros st text. cbv zeta. unfold handleCustomTipChange.
    set (c := removeAll nonNumeric text).
    destruct (isEmpty c || test amountPattern c); [|now left].
    destruct (negb (isNaN (parseFloat c)) && ge (parseFloat c) (of_Z 1)) eqn:Ep.
    + apply andb_true_iff in Ep as [_ Hg]. right. right. cbn. auto.
    + destruct (isEmpty c); cbn; auto.
Qed.

Lemma strict_eq_zero : strict_eq (of_Z 0) (of_Z 0) = true.
Proof. reflexivity. Qed.

(** C4. In every state reached from the initial one by any sequence of the
    five operations, the preset selection and the custom tip are not both
    active; selecting a preset clears the custom value and its display,
    and entering a valid custom value (one that reads as at least 1.00)
    makes it the active custom tip and clears the preset selection. *)
Theorem C4_preset_and_custom_exclusive :
  (forall ops : list op,
     let st := run initial ops in
     presetActive st && customActive st = false) /\
  (forall (st : state) (p : number),
     customTip (handleTipSelect st p) = "" /\
     customTipDisplay (handleTipSelect st p) = "" /\
     customActive (handleTipSelect st p) = false) /\
  (forall (st : state) (text : string),
     let c := removeAll nonNumeric text in
     let st' := handleCustomTipChange st text in
     isEmpty c || test amountPattern c = true ->
     ge (parseFloat c) (of_Z 1) = true ->
     customTip st' = c /\ selectedTip st' = of_Z 0 /\
     customActive st' = true /\ presetActive st' = false).
Proof.
  split; [|split].
  - intros ops st. pose proof (reachable_tipInvariant st (reachable_run ops)) as I.
    unfold presetActive, customActive.
    destruct (truthy (customTip st)) eqn:Et; [|apply andb_false_r].
    apply truthy_true in Et. rewrite (tip_exclusive _ I Et). reflexivity.
  - intros st p. cbn. auto.
  - intros st text c st' Ha Hg. unfold st', handleCustomTipChange. fold c.
    rewrite Ha, Hg.
    pose proof (proj1 (ge_one_true _) Hg) as [Hn _]. rewrite Hn.
    cbn -[of_Z]. repeat split; try reflexivity.
    unfold customActive, truthy. cbn.
    destruct c; [discriminate Hn | reflexivity].
Qed.

End TipClaims.

(** ** Derived amounts and preset selection *)

Section Amounts.

Lemma zero_percent (b : number) :
  isFinite b = true -> div (mul b (of_Z 0)) (of_Z 100) = of_Z 0.
Proof.
  destruct b as [| | |q]; try discriminate. intros _.
  unfold of_Z, mul, div.
  replace (Qc_is_zero (Q2Qc (inject_Z 100))) with false by reflexivity.
  f_equal. change (Q2Qc (inject_Z 0)) with (Q2Qc 0).
  unfold Qcdiv. now rewrite Qcmult_0_r, Qcmult_0_l.
Qed.


(** With no custom tip and no preset, the tip on a finite amount is zero. *)
Lemma tip_none (st : state) :
  customTip st = "" -> selectedTip st = of_Z 0 ->
  isFinite (baseAmount st) = true -> tip (derivedAmounts st) = of_Z 0.
Proof.
  intros Hc Hs Hf. unfold derivedAmounts, tipAmount, calculateTipAmount.
  cbn [tip]. rewrite Hc, Hs. cbn [truthy isEmpty negb].
  now apply zero_percent.
Qed.


Lemma presets_finite (p : number) :
  In p tipPercentages ->
  strict_eq p p = true /\ strict_eq (of_Z 0) p = false.
Proof.
  intros [<- | [<- | [<- | []]]]; split; reflexivity.
Qed.

End Amounts.

Section PresetClaims.

(** C6, as stated, fails: from a state without custom tip in which 15 is
    already the selected preset, selecting 15 twice leaves 15 selected,
    not "no tip". *)
Lemma C6_counterexample :
  ~ (forall st : state,
       customTip st = "" ->
       selectedTip (handleTipSelect (handleTipSelect st (of_Z 15)) (of_Z 15))
       = of_Z 0).
Proof.
  intros H. specialize (H (handleTipSelect initial (of_Z 15)) eq_refl).
  apply (f_equal numerator) in H. vm_compute in H. discriminate.
Qed.

(** C6, amended.  For every offered percentage [p] and every state:
    [selectPresetTip(p)] deselects [p] when it is the selected one (no
    preset, and a zero tip on a finite base amount), selects it otherwise,
    and in both cases clears the custom tip value and its display text.
    Applied twice from a state in which [p] is not the selected preset it
    yields no tip; applied twice from a state in which [p] is selected it
    leaves [p] selected. *)
Theorem C6_select_preset_toggles (st : state) (p : number) :
  In p tipPercentages ->
  let st1 := handleTipSelect st p in
  let st2 := handleTipSelect st1 p in
  (strict_eq (selectedTip st) p = true ->
   selectedTip st1 = of_Z 0 /\
   (isFinite (baseAmount st) = true -> tip (derivedAmounts st1) = of_Z 0)) /\
  (strict_eq (selectedTip st) p = false -> selectedTip st1 = p) /\
  customTip st1 = "" /\ customTipDisplay st1 = "" /\
  (strict_eq (selectedTip st) p = false ->
   selectedTip st2 = of_Z 0 /\ customTip st2 = "" /\
   (isFinite (baseAmount st) = true -> tip (derivedAmounts st2) = of_Z 0)) /\
  (strict_eq (selectedTip st) p = true -> selectedTip st2 = p).
Proof.
  intros Hp st1 st2. destruct (presets_finite p Hp) as [Hpp H0p].
  assert (H1 : strict_eq (selectedTip st) p = true -> selectedTip st1 = of_Z 0)
    by (intros E; unfold st1, handleTipSelect; cbn [selectedTip]; now rewrite E).
  assert (H2 : strict_eq (selectedTip st) p = false -> selectedTip st1 = p)
    by (intros E; unfold st1, handleTipSelect; cbn [selectedTip]; now rewrite E).
  assert (H3 : selectedTip st1 = p -> selectedTip st2 = of_Z 0)
    by (intros E; unfold st2, handleTipSelect at 1; cbn [selectedTip];
        now rewrite E, Hpp).
  assert (H4 : selectedTip st1 = of_Z 0 -> selectedTip st2 = p)
    by (intros E; unfold st2, handleTipSelect at 1; cbn [selectedTip];
        now rewrite E, H0p).
  repeat split; auto.
  - intros Hf. apply tip_none; auto.
  - intros Hf. apply tip_none; auto.
Qed.

(** C3, as stated, fails: with preset 15 selected, a custom tip text whose
    cleaned form is empty (here a letter typed into the empty field) resets
    the preset selection. *)
Lemma C3_counterexample :
  ~ (forall (st : state) (text : string),
       removeAll nonNumeric text = "" ->
       selectedTip (handleCustomTipChange st text) = selectedTip st).
Proof.
  intros H. specialize (H (handleTipSelect initial (of_Z 15)) "a" eq_refl).
  apply (f_equal numerator) in H. vm_compute in H. discriminate.
Qed.

(** C3, amended.  [setCustomTipText] with a text whose cleaned form is
    empty clears the active custom tip and its display, and resets the
    preset selection to none; the base amount and its text are unchanged. *)
Theorem C3_empty_custom_tip_text (st : state) (text : string) :
  removeAll nonNumeric text = "" ->
  let st' := handleCustomTipChange st text in
  customTip st' = "" /\ customTipDisplay st' = "" /\
  selectedTip st' = of_Z 0 /\
  baseAmount st' = baseAmount st /\ baseAmountInput st' = baseAmountInput st.
Proof.
  intros H. cbv zeta. unfold handleCustomTipChange. rewrite H.
  cbn [isEmpty orb truthy negb]. rewrite parseFloat_empty.
  cbn [isNaN negb andb baseAmount baseAmountInput selectedTip customTip
       customTipDisplay].
  auto.
Qed.

End PresetClaims.

(** ** Payability and the input filter *)

Section Payable.

Lemma lt_then_not_ge (x y : number) : lt x y = true -> ge x y = false.
Proof.
  destruct x, y; cbn [lt ge]; try discriminate; try reflexivity;
    intros ->; reflexivity.
Qed.



Lemma removeAll_filter (cls : ascii -> bool) (s : string) :
  list_ascii_of_string (removeAll cls s) =
  filter (fun c => negb (cls c)) (list_ascii_of_string s).
Proof.
  induction s as [|c s IH]; simpl; [reflexivity|].
  destruct (cls c); simpl; now rewrite IH.
Qed.

Lemma afterDot_not_empty (s : string) :
  (1 < countDots s)%nat \/ (2 < String.length (afterDot s))%nat ->
  isEmpty s = false.
Proof. destruct s; simpl; [lia | reflexivity]. Qed.

(** C9. [setBaseAmountText] first removes every character that is neither
    a digit nor a dot; when what is left has more than one dot, or more
    than two characters after the dot, nothing changes (neither the
    editable text nor the numeric base amount), and otherwise what is left
    becomes the editable text.  No operation raises an error: the handlers
    have no [throw], the built-ins they call do not throw at these
    arguments ([toFixed] only for a digit count outside 0..100), and each
    operation yields a state from every state. *)
Theorem C9_base_amount_filter :
  (forall (st : state) (text : string),
     let c := removeAll nonNumeric text in
     list_ascii_of_string c =
       filter (fun ch => isDigit ch || isDot ch) (list_ascii_of_string text) /\
     ((1 < countDots c)%nat \/ (2 < String.length (afterDot c))%nat ->
      handleBaseAmountChange st text = st) /\
     ((countDots c <= 1)%nat -> (String.length (afterDot c) <= 2)%nat ->
      baseAmountInput (handleBaseAmountChange st text) = c)) /\
  (forall (st : state) (o : op), exists st' : state, step st o = st').
Proof.
  split; [|intros st o; eexists; reflexivity].
  intros st text c.
  assert (Hn : numericOnly c = true) by apply removeAll_numericOnly.
  repeat split.
  - unfold c. rewrite removeAll_filter. apply filter_ext.
    intros ch. unfold nonNumeric. apply negb_involutive.
  - intros H. unfold handleBaseAmountChange. fold c.
    rewrite (afterDot_not_empty c H). cbn [orb].
    destruct (test amountPattern c) eqn:Et; [|reflexivity].
    apply (test_amountPattern c Hn) in Et. lia.
  - intros H1 H2. unfold handleBaseAmountChange. fold c.
    rewrite (proj2 (test_amountPattern c Hn) (conj H1 H2)), orb_true_r.
    destruct (truthy c && negb (isNaN (parseFloat c))); [reflexivity|].
    destruct (isEmpty c); reflexivity.
Qed.

End Payable.

(** ** The custom tip below the minimum *)

Section CustomTipBelowMinimum.

(** C2.  The component at the claim's own example: after entering the
    custom tip text "0.50", which reads as a number below 1.00,
    [commitCustomTip()] does not clamp to 1.00: no custom tip is active and
    the display text is empty. *)
Theorem C2_custom_tip_below_minimum_not_clamped :
  let st := run initial [setCustomTipText "0.50"; commitCustomTip] in
  lt (parseFloat "0.50") (of_Z 1) = true /\
  customTip st = "" /\ customTipDisplay st = "" /\
  customTip st <> "1.00" /\ customTipDisplay st <> "$1.00".
Proof. cbv zeta. repeat split; try reflexivity; discriminate. Qed.

(** Entering a text that reads as a number below 1.00 never changes the
    active custom tip, so a commit that follows has nothing below 1.00 to
    clamp. *)
Lemma custom_tip_below_minimum_not_stored (st : state) (text : string) :
  let c := removeAll nonNumeric text in
  lt (parseFloat c) (of_Z 1) = true ->
  customTip (handleCustomTipChange st text) = customTip st /\
  selectedTip (handleCustomTipChange st text) = selectedTip st.
Proof.
  intros c Hl. unfold handleCustomTipChange. fold c.
  destruct (isEmpty c || test amountPattern c); [|auto].
  rewrite (lt_then_not_ge _ _ Hl), andb_false_r.
  destruct (isEmpty c) eqn:Ee; [|cbn; auto].
  apply isEmpty_true in Ee. rewrite Ee in Hl. discriminate.
Qed.

End CustomTipBelowMinimum.

(** ** The scenarios of the specification *)

Section Scenarios.

(** Base amount 200.00 with the 15% preset: 200.00 + 30.00 = 230.00. *)
Example scenario_preset :
  let d := derivedAmounts (run initial [setBaseAmountText "200.00";
                                        commitBaseAmount;
                                        selectPresetTip (of_Z 15)]) in
  toFixed2 (subtotal d) = "200.00" /\ toFixed2 (tip d) = "30.00" /\
  toFixed2 (total d) = "230.00".
Proof. cbv zeta. repeat split; reflexivity. Qed.

(** Base amount 75.50 with the custom tip 12.30: 75.50 + 12.30 = 87.80. *)
Example scenario_custom :
  let d := derivedAmounts (run initial [setBaseAmountText "75.50";
                                        commitBaseAmount;
                                        setCustomTipText "12.30";
                                        commitCustomTip]) in
  toFixed2 (subtotal d) = "75.50" /\ toFixed2 (tip d) = "12.30" /\
  toFixed2 (total d) = "87.80".
Proof. cbv zeta. repeat split; reflexivity. Qed.

(** A custom tip typed over an active one and below the minimum leaves the
    earlier one active: the display shows the new text, the tip is the old
    one. *)
Example scenario_stale_custom_tip :
  let st := run initial [setCustomTipText "5"; setCustomTipText "0.50"] in
  customTip st = "5" /\ customTipDisplay st = "$0.50" /\
  customTip (handleCustomTipBlur st) = "5.00".
Proof. cbv zeta. repeat split; reflexivity. Qed.

End Scenarios.

(** ** Instances of the claims at concrete inputs *)

Section Witnesses.


Lemma C3_witness :
  removeAll nonNumeric "abc" = "" /\
  selectedTip (handleCustomTipChange (handleTipSelect initial (of_Z 15)) "abc")
  = of_Z 0.
Proof.
  split; [reflexivity|].
  exact (proj1 (proj2 (proj2
    (C3_empty_custom_tip_text (handleTipSelect initial (of_Z 15)) "abc"
       eq_refl)))).
Defined.

Lemma C4_witness :
  (isEmpty "5.00" || test amountPattern "5.00" = true /\
   ge (parseFloat "5.00") (of_Z 1) = true) /\
  selectedTip (handleCustomTipChange (handleTipSelect initial (of_Z 10)) "5.00")
  = of_Z 0.
Proof.
  split; [split; reflexivity|].
  exact (proj1 (proj2
    (proj2 (proj2 C4_preset_and_custom_exclusive)
       (handleTipSelect initial (of_Z 10)) "5.00" eq_refl eq_refl))).
Defined.


Lemma C6_witness :
  (In (of_Z 15) tipPercentages /\
   strict_eq (selectedTip initial) (of_Z 15) = false) /\
  selectedTip (handleTipSelect (handleTipSelect initial (of_Z 15)) (of_Z 15))
  = of_Z 0.
Proof.
  assert (H : In (of_Z 15) tipPercentages) by (right; left; reflexivity).
  split; [split; [exact H | reflexivity]|].
  exact (proj1 (proj1 (proj2 (proj2 (proj2 (proj2
    (C6_select_preset_toggles initial (of_Z 15) H))))) eq_refl)).
Defined.


Lemma C9_witness :
  ((1 < countDots (removeAll nonNumeric "1.2.3"))%nat \/
   (2 < String.length (afterDot (removeAll nonNumeric "1.2.3")))%nat) /\
  handleBaseAmountChange initial "1.2.3" = initial.
Proof.
  assert (H : (1 < countDots (removeAll nonNumeric "1.2.3"))%nat \/
              (2 < String.length (afterDot (removeAll nonNumeric "1.2.3")))%nat)
    by (left; apply Nat.lt_succ_diag_r).
  split; [exact H|].
  exact (proj1 (proj2 (proj1 C9_base_amount_filter initial "1.2.3")) H).
Defined.

Lemma C10_witness :
  reachable (run initial [setCustomTipText "0.50"]) /\
  handleCustomTipBlur (run initial [setCustomTipText "0.50"]) =
  reformatOrClear (run initial [setCustomTipText "0.50"]).
Proof.
  assert (R : reachable (run initial [setCustomTipText "0.50"]))
    by (exact (reachable_step _ _ reachable_initial)).
  split; [exact R|].
  exact (proj2 (proj2 (proj1 C10_custom_tip_clamp_unreachable _ R))).
Defined.

End Witnesses.

(** * Further properties of the payment page *)

Import PaymentProps.

(** ** Texts of the accepted shape are whole cents *)

Section ShapedTexts.

Lemma shaped_empty : shaped "".
Proof. repeat split; simpl; lia. Qed.

Lemma shaped_cleaned (value : string) :
  let c := removeAll nonNumeric value in
  isEmpty c || test amountPattern c = true -> shaped c.
Proof.
  intros c H. assert (Hn : numericOnly c = true) by apply removeAll_numericOnly.
  apply orb_true_iff in H as [H | H].
  - apply isEmpty_true in H. rewrite H. apply shaped_empty.
  - split; [exact Hn|]. now apply (test_amountPattern c Hn).
Qed.

Lemma afterDot_allDigits_dot (a b : string) :
  allDigits a = true -> afterDot (a ++ String "." b) = b.
Proof.
  intros Ha. induction a as [|c a IH]; simpl in *; [reflexivity|].
  apply andb_true_iff in Ha as [Hc Ha]. rewrite (isDigit_not_dot _ Hc). auto.
Qed.

Lemma shaped_centsNotation (n : Z) : (0 <= n)%Z -> shaped (centsNotation n).
Proof.
  intros Hn. split; [now apply numericOnly_centsNotation|].
  split; [rewrite countDots_centsNotation; lia|].
  unfold centsNotation. rewrite afterDot_allDigits_dot; [simpl; lia|].
  apply allDigits_decimalString, Z.div_pos; lia.
Qed.

(** What a shaped text reads as: nothing, or its digits scaled by the
    number of those after the dot, of which there are at most two. *)
Lemma parseFloat_shaped (s : string) :
  shaped s ->
  parseFloat s = NaN \/
  exists ip fp, allDigits ip = true /\ allDigits fp = true /\
                (String.length fp <= 2)%nat /\
                parseFloat s = Fin (decimalValue ip fp 0).
Proof.
  intros (Hn & Hd & Hl). destruct s as [|c u]; [now left|].
  assert (Hc : isDigit c || isDot c = true)
    by (cbn [numericOnly] in Hn; now apply andb_true_iff in Hn as [Hc _]).
  rewrite (parseFloat_numeric_head _ _ Hc).
  destruct (numericOnly_split _ Hn) as [Ha | (a & b & E & Ha & Hb & Hcnt & Hb')].
  - rewrite (spanDigits_all _ Ha). cbn [fractionPart isEmpty andb exponentPart].
    right. exists (String c u), "". repeat split; auto.
  - assert (Hbd : allDigits b = true)
      by (apply numericOnly_no_dot; [exact Hb' | lia]).
    rewrite E, spanDigits_append; [|exact Ha | reflexivity].
    unfold fractionPart. change (isDot ".") with true. cbv iota.
    rewrite (spanDigits_all _ Hbd). cbn [exponentPart].
    destruct (isEmpty a && isEmpty b); [now left|].
    right. exists a, b. rewrite Hb in Hl. auto.
Qed.

Lemma decimalValue_isCents (ip fp : string) :
  allDigits ip = true -> allDigits fp = true -> (String.length fp <= 2)%nat ->
  isCents (Fin (decimalValue ip fp 0)).
Proof.
  intros Hi Hf Hl. unfold decimalValue.
  assert (HM : (0 <= digitsValue 0 (ip ++ fp))%Z).
  { apply digitsValue_nonneg; [|lia]. now rewrite allDigits_append, Hi, Hf. }
  generalize dependent (digitsValue 0 (ip ++ fp)). intros M HM.
  destruct fp as [|c1 [|c2 [|c3 fp]]]; cbn [String.length] in *; try lia.
  - exists (100 * M)%Z. split; [lia|]. f_equal. apply Q2Qc_eq_iff.
    change (inject_Z 10 ^ (0 - Z.of_nat 0))%Q with (1 # 1)%Q.
    unfold Qeq, Qmult, inject_Z. cbn [Qnum Qden Pos.mul]. lia.
  - exists (10 * M)%Z. split; [lia|]. f_equal. apply Q2Qc_eq_iff.
    change (inject_Z 10 ^ (0 - Z.of_nat 1))%Q with (1 # 10)%Q.
    unfold Qeq, Qmult, inject_Z. cbn [Qnum Qden Pos.mul]. lia.
  - exists M. split; [lia|]. f_equal. apply Q2Qc_eq_iff.
    change (inject_Z 10 ^ (0 - Z.of_nat 2))%Q with (1 # 100)%Q.
    unfold Qeq, Qmult, inject_Z. cbn [Qnum Qden Pos.mul]. lia.
Qed.

(** A shaped text reads as nothing or as a whole number of cents. *)
Lemma parseFloat_shaped_cents (s : string) :
  shaped s -> parseFloat s = NaN \/ isCents (parseFloat s).
Proof.
  intros H. destruct (parseFloat_shaped s H) as [E | (ip & fp & Hi & Hf & Hl & E)];
    [now left | right].
  rewrite E. now apply decimalValue_isCents.
Qed.

(** Printing a whole number of cents and reading it back gives it again. *)
Lemma isCents_round_trip (x : number) :
  isCents x -> parseFloat (toFixed2 x) = x.
Proof.
  intros (n & Hn & ->).
  assert (Hs : Qc_sign_neg (Q2Qc (n # 100)) = false).
  { apply Qc_sign_neg_false. rewrite this_Q2Qc. unfold Qle. simpl. lia. }
  rewrite (parseFloat_toFixed2 _ Hs). unfold round2.
  now rewrite nearestCents_cents.
Qed.

Lemma isCents_toFixed2 (x : number) : isCents x -> shaped (toFixed2 x).
Proof.
  intros (n & Hn & ->).
  assert (Hs : Qc_sign_neg (Q2Qc (n # 100)) = false).
  { apply Qc_sign_neg_false. rewrite this_Q2Qc. unfold Qle. simpl. lia. }
  rewrite (toFixed2_nonneg _ Hs), nearestCents_cents.
  now apply shaped_centsNotation.
Qed.

Lemma isCents_of_Z (z : Z) : (0 <= z)%Z -> isCents (of_Z z).
Proof.
  intros Hz. exists (100 * z)%Z. split; [lia|]. unfold of_Z. f_equal.
  apply Q2Qc_eq_iff. unfold Qeq, inject_Z. cbn [Qnum Qden]. lia.
Qed.

End ShapedTexts.

(** ** The amounts of the reachable states *)

Section MoneyInvariant.

Ltac fields :=
  cbn [baseAmount baseAmountInput selectedTip customTip customTipDisplay].

Lemma committedAmount_isCents (v : number) :
  v <> PInf -> isCents (committedAmount v).
Proof.
  intros Hv. destruct (committedAmount_cents v Hv) as (n & Hn & E & _).
  exists n. split; [lia | exact E].
Qed.

Lemma isCents_not_special (x : number) :
  isCents x -> x <> PInf /\ isNaN x = false.
Proof. intros (n & _ & ->). split; [discriminate | reflexivity]. Qed.

Lemma moneyInvariant_initial : moneyInvariant initial.
Proof.
  constructor.
  - repeat split; simpl; lia.
  - apply (isCents_of_Z 200). lia.
  - apply shaped_empty.
Qed.

Lemma moneyInvariant_base_change (st : state) (value : string) :
  moneyInvariant st -> moneyInvariant (handleBaseAmountChange st value).
Proof.
  intros I. unfold handleBaseAmountChange.
  pose proof (shaped_cleaned value) as Hsh. cbv zeta in Hsh.
  set (c := removeAll nonNumeric value) in *.
  destruct (isEmpty c || test amountPattern c); [|exact I].
  specialize (Hsh eq_refl).
  destruct (truthy c && negb (isNaN (parseFloat c))) eqn:Ep.
  - apply andb_true_iff in Ep as [_ Hp]. apply negb_true_iff in Hp.
    constructor; fields; [exact Hsh | | apply I].
    destruct (parseFloat_shaped_cents c Hsh) as [E | H]; [|exact H].
    rewrite E in Hp. discriminate.
  - destruct (isEmpty c); constructor; fields;
      try exact Hsh; try apply I.
    apply (isCents_of_Z 0). lia.
Qed.

Lemma moneyInvariant_base_blur (st : state) :
  moneyInvariant st -> moneyInvariant (handleBaseAmountBlur st).
Proof.
  intros I. destruct (handleBaseAmountBlur_value st) as (Hb & Ht & _ & Hc & _).
  cbv zeta in *.
  assert (Hcents : isCents (baseAmount (handleBaseAmountBlur st))).
  { rewrite Hb. apply committedAmount_isCents.
    destruct (parseFloat_shaped_cents _ (money_base_text _ I)) as [-> | H];
      [discriminate | now apply isCents_not_special]. }
  constructor.
  - rewrite Ht. now apply isCents_toFixed2.
  - exact Hcents.
  - rewrite Hc. apply I.
Qed.

Lemma moneyInvariant_tip_change (st : state) (value : string) :
  moneyInvariant st -> moneyInvariant (handleCustomTipChange st value).
Proof.
  intros I. unfold handleCustomTipChange.
  pose proof (shaped_cleaned value) as Hsh. cbv zeta in Hsh.
  set (c := removeAll nonNumeric value) in *.
  destruct (isEmpty c || test amountPattern c); [|exact I].
  specialize (Hsh eq_refl).
  destruct (negb (isNaN (parseFloat c)) && ge (parseFloat c) (of_Z 1)).
  - constructor; fields; [apply I | apply I | exact Hsh].
  - destruct (isEmpty c); constructor; fields; try apply I.
    apply shaped_empty.
Qed.

Lemma moneyInvariant_tip_blur (st : state) :
  tipInvariant st -> moneyInvariant st ->
  moneyInvariant (handleCustomTipBlur st).
Proof.
  intros T I. unfold handleCustomTipBlur.
  destruct (truthy (customTip st)) eqn:Et.
  - apply truthy_true in Et. pose proof (tip_minimum _ T Et) as Hg.
    apply ge_one_true in Hg as [Hn _].
    destruct (lt (parseFloat (customTip st)) (of_Z 1)).
    + constructor; fields; try apply I. repeat split; simpl; lia.
    + constructor; fields; try apply I. apply isCents_toFixed2.
      destruct (parseFloat_shaped_cents _ (money_custom_text _ I)) as [E | H];
        [|exact H].
      rewrite E in Hn. discriminate.
  - constructor; fields; apply I.
Qed.

(** In every reachable state both texts have the accepted shape and the
    numeric base amount is a whole number of cents. *)
Lemma reachable_moneyInvariant (st : state) :
  reachable st -> moneyInvariant st.
Proof.
  induction 1 as [|st o R IH]; [exact moneyInvariant_initial|].
  destruct o as [text| |p|text|]; cbn [step].
  - now apply moneyInvariant_base_change.
  - now apply moneyInvariant_base_blur.
  - constructor; fields; try apply IH. apply shaped_empty.
  - now apply moneyInvariant_tip_change.
  - apply moneyInvariant_tip_blur; [now apply reachable_tipInvariant | exact IH].
Qed.

End MoneyInvariant.

(** ** Commits, independence and the amount to pay *)

Section PaymentExtras.

Ltac fields :=
  cbn [baseAmount baseAmountInput selectedTip customTip customTipDisplay].

Lemma parseFloat_toFixed2_stable (v : number) :
  lt v (of_Z 1) = false ->
  lt (parseFloat (toFixed2 v)) (of_Z 1) = false /\
  toFixed2 (parseFloat (toFixed2 v)) = toFixed2 v.
Proof.
  intros Hl. destruct v as [| | |q]; try discriminate; try (split; reflexivity).
  apply lt_one_false in Hl.
  assert (Hs : Qc_sign_neg q = false) by (apply Qc_sign_neg_false; lra).
  rewrite (parseFloat_toFixed2 _ Hs). split.
  - apply lt_one_false. now apply round2_ge_one.
  - now apply toFixed2_round2.
Qed.

(** X1. [handleCustomTipBlur] is idempotent on every state: a second blur
    of the custom tip field changes nothing. *)
Theorem X1_custom_tip_blur_idempotent (st : state) :
  handleCustomTipBlur (handleCustomTipBlur st) = handleCustomTipBlur st.
Proof.
  unfold handleCustomTipBlur at 2 3.
  destruct (truthy (customTip st)) eqn:Et.
  - destruct (lt (parseFloat (customTip st)) (of_Z 1)) eqn:El.
    + unfold handleCustomTipBlur. fields. cbn [truthy isEmpty negb].
      now rewrite parseFloat_one, lt_one_one, toFixed2_one.
    + destruct (parseFloat_toFixed2_stable _ El) as [Hl Hf].
      unfold handleCustomTipBlur. fields.
      unfold truthy. rewrite toFixed2_not_empty. cbn [negb].
      now rewrite Hl, Hf.
  - unfold handleCustomTipBlur. fields. now rewrite Et.
Qed.

(** X2. In every reachable state [handleBaseAmountBlur] never rounds the
    numeric base amount: when the text reads as a number that is at least
    1.00 the amount is left as it is, and otherwise it becomes exactly
    1.00. *)
Theorem X2_base_blur_keeps_or_resets (st : state) :
  reachable st ->
  (ge (parseFloat (baseAmountInput st)) (of_Z 1) = true ->
   baseAmount (handleBaseAmountBlur st) = baseAmount st) /\
  (ge (parseFloat (baseAmountInput st)) (of_Z 1) = false ->
   baseAmount (handleBaseAmountBlur st) = of_Z 1).
Proof.
  intros R. pose proof (reachable_moneyInvariant st R) as I.
  pose proof (reachable_baseInvariant st R) as B.
  destruct (handleBaseAmountBlur_value st) as (Hb & _). cbv zeta in Hb.
  rewrite Hb. split; intros Hg.
  - apply ge_one_true in Hg as [Hn Hl].
    rewrite (base_tracks_text _ B Hn).
    destruct (parseFloat_shaped_cents _ (money_base_text _ I)) as [E | H];
      [rewrite E in Hn; discriminate|].
    destruct H as (n & Hn0 & E). rewrite E in *. cbn [committedAmount].
    apply lt_one_false in Hl. f_equal.
    assert (Hr : round2 (Q2Qc (n # 100)) = Q2Qc (n # 100))
      by (unfold round2; now rewrite nearestCents_cents).
    rewrite Hr. now apply Qc_max_one.
  - destruct (parseFloat (baseAmountInput st)) as [| | |q]; try reflexivity;
      [discriminate|].
    cbn [ge of_Z] in Hg. apply negb_false_iff in Hg.
    apply (lt_one_true q) in Hg. cbn [committedAmount].
    rewrite Qc_max_below; [reflexivity|].
    now apply round2_le_one.
Qed.

(** X3. In every reachable state [handleCustomTipBlur] changes no amount:
    subtotal, tip and total are what they were, and so are the numeric base
    amount and the selected percentage. *)
Theorem X3_custom_tip_blur_keeps_amounts (st : state) :
  reachable st ->
  derivedAmounts (handleCustomTipBlur st) = derivedAmounts st /\
  baseAmount (handleCustomTipBlur st) = baseAmount st /\
  selectedTip (handleCustomTipBlur st) = selectedTip st.
Proof.
  intros R. pose proof (reachable_moneyInvariant st R) as I.
  pose proof (reachable_tipInvariant st R) as T.
  destruct (handleCustomTipBlur_frame st) as (Hb & _ & Hs). cbv zeta in *.
  split; [|now split].
  unfold derivedAmounts, tipAmount, getTotalAmount, calculateTipAmount.
  rewrite Hb, Hs. unfold handleCustomTipBlur.
  destruct (truthy (customTip st)) eqn:Et; fields; [|now rewrite Et].
  pose proof Et as Ene. apply truthy_true in Ene.
  pose proof (tip_minimum _ T Ene) as Hg.
  apply ge_one_true in Hg as [Hn Hl]. rewrite Hl. fields.
  unfold truthy. rewrite toFixed2_not_empty. cbn [negb].
  destruct (parseFloat_shaped_cents _ (money_custom_text _ I)) as [E | H];
    [rewrite E in Hn; discriminate|].
  now rewrite (isCents_round_trip _ H).
Qed.



End PaymentExtras.

Section PaymentIndependence.

Ltac fields :=
  cbn [baseAmount baseAmountInput selectedTip customTip customTipDisplay].

Ltac known_ifs :=
  fields;
  repeat (match goal with
          | H : ?c = _ |- context [if ?c then _ else _] => rewrite H
          end; fields).

Ltac split_ifs :=
  repeat (known_ifs;
          match goal with
          | |- context [if ?c then _ else _] =>
              lazymatch c with
              | context [if _ then _ else _] => fail
              | _ => destruct c eqn:?
              end
          end);
  known_ifs; try reflexivity.

(** X4. The operations on the base amount and those on the tip are
    independent: applied one after the other in either order they lead to
    the same state. *)
Theorem X4_base_and_tip_operations_commute (st : state) (a b : op) :
  isBaseOp a = true -> isBaseOp b = false ->
  step (step st a) b = step (step st b) a.
Proof.
  intros Ha Hb.
  destruct a as [ta| |pa|ta|]; try discriminate Ha;
    destruct b as [tb| |pb|tb|]; try discriminate Hb; cbn [step].
  - unfold handleTipSelect, handleBaseAmountChange. split_ifs.
  - unfold handleCustomTipChange, handleBaseAmountChange. split_ifs.
  - unfold handleCustomTipBlur, handleBaseAmountChange. split_ifs.
  - unfold handleTipSelect, handleBaseAmountBlur. split_ifs.
  - unfold handleCustomTipChange, handleBaseAmountBlur. split_ifs.
  - unfold handleCustomTipBlur, handleBaseAmountBlur. split_ifs.
Qed.

End PaymentIndependence.

Section AmountToPay.

Open Scope Q_scope.








End AmountToPay.

Section SubMinimumTip.

(** X6. A custom tip text that reads as a number below 1.00 is shown in the
    field but counts for nothing: the active custom tip, the selected
    percentage, and so subtotal, tip and total stay as they were, and the
    blur that follows leaves the state it would have left without the
    text. *)
Theorem X6_tip_text_below_minimum_is_only_shown (st : state) (text : string) :
  let c := removeAll nonNumeric text in
  let st' := handleCustomTipChange st text in
  test amountPattern c = true ->
  lt (parseFloat c) (of_Z 1) = true ->
  customTipDisplay st' = "$" ++ c /\
  customTip st' = customTip st /\
  selectedTip st' = selectedTip st /\
  derivedAmounts st' = derivedAmounts st /\
  handleCustomTipBlur st' = handleCustomTipBlur st.
Proof.
  intros c st' Ht Hl. unfold st', handleCustomTipChange. fold c.
  rewrite Ht, orb_true_r, (lt_then_not_ge _ _ Hl), andb_false_r.
  assert (He : isEmpty c = false).
  { destruct c; [discriminate Hl | reflexivity]. }
  unfold truthy. rewrite He. cbn [negb]. repeat split.
Qed.

End SubMinimumTip.

(** * The services and the dialogs *)

(** ** [trim] and [toLowerCase] *)

Section TextLemmas.
Import Text AuthService ServiceProps.

Lemma trimStart_empty (s : string) :
  trimStart s = "" <-> hasVisible s = false.
Proof.
  unfold hasVisible, notSpace.
  induction s as [|c s IH]; simpl; [tauto|].
  destruct (isWhiteSpace c); simpl; [exact IH|].
  split; discriminate.
Qed.

Lemma trimEnd_empty (s : string) :
  trimEnd s = "" <-> hasVisible s = false.
Proof.
  unfold hasVisible, notSpace.
  induction s as [|c s IH]; simpl; [tauto|].
  destruct (trimEnd s) as [|c' t].
  - destruct (isWhiteSpace c); simpl.
    + split; [intros _; now apply IH | reflexivity].
    + split; discriminate.
  - split; [discriminate|].
    intros H. apply orb_false_iff in H as [_ H].
    apply IH in H. discriminate.
Qed.

Lemma hasVisible_trimStart (s : string) :
  hasVisible (trimStart s) = hasVisible s.
Proof.
  unfold hasVisible, notSpace.
  induction s as [|c s IH]; simpl; [reflexivity|].
  destruct (isWhiteSpace c) eqn:E; simpl; [exact IH | now rewrite E].
Qed.

(** The trimmed text is empty exactly when the text is all white space. *)
Lemma isEmpty_trim (s : string) : isEmpty (trim s) = negb (hasVisible s).
Proof.
  unfold trim. destruct (hasVisible s) eqn:E; simpl.
  - apply isEmpty_false. intros H. apply trimEnd_empty in H.
    rewrite hasVisible_trimStart in H. congruence.
  - apply isEmpty_true, trimEnd_empty. now rewrite hasVisible_trimStart.
Qed.

Lemma trimStart_cases (s : string) :
  trimStart s = "" \/
  exists c r, trimStart s = String c r /\ isWhiteSpace c = false.
Proof.
  induction s as [|c s IH]; simpl; [now left|].
  destruct (isWhiteSpace c) eqn:E; [exact IH | right; eauto].
Qed.

Lemma trimEnd_cons (c : ascii) (r : string) :
  isWhiteSpace c = false -> trimEnd (String c r) = String c (trimEnd r).
Proof. intros H. simpl. rewrite H. now destruct (trimEnd r). Qed.

Lemma trimEnd_unfold (c : ascii) (r : string) :
  trimEnd (String c r) =
  match trimEnd r with
  | EmptyString => if isWhiteSpace c then EmptyString else String c EmptyString
  | t => String c t
  end.
Proof. reflexivity. Qed.

Lemma trimEnd_idempotent (s : string) : trimEnd (trimEnd s) = trimEnd s.
Proof.
  induction s as [|c s IH]; [reflexivity|].
  rewrite (trimEnd_unfold c s). destruct (trimEnd s) as [|c' t] eqn:E.
  - destruct (isWhiteSpace c) eqn:Ec; [reflexivity|].
    simpl. now rewrite Ec.
  - rewrite (trimEnd_unfold c (String c' t)), IH. reflexivity.
Qed.

(** [trim] is idempotent. *)
Lemma trim_idempotent (s : string) : trim (trim s) = trim s.
Proof.
  unfold trim. destruct (trimStart_cases s) as [-> | (c & r & -> & Hc)];
    [reflexivity|].
  rewrite (trimEnd_cons _ _ Hc). cbn [trimStart]. rewrite Hc.
  rewrite <- (trimEnd_cons _ _ Hc). apply trimEnd_idempotent.
Qed.

Lemma trimEnd_noSpace (s : string) :
  allClass notSpace s = true -> trimEnd s = s.
Proof.
  unfold notSpace. induction s as [|c s IH]; [reflexivity|].
  cbn [allClass]. rewrite andb_true_iff, negb_true_iff. intros [Hc Hs].
  rewrite (trimEnd_cons _ _ Hc), IH; auto.
Qed.

(** A text without white space is its own trimmed form. *)
Lemma trim_noSpace (s : string) : allClass notSpace s = true -> trim s = s.
Proof.
  intros H. unfold trim.
  replace (trimStart s) with s; [now apply trimEnd_noSpace|].
  destruct s as [|c s]; [reflexivity|]. simpl in *.
  apply andb_true_iff in H as [Hc _]. unfold notSpace in Hc.
  apply negb_true_iff in Hc. now rewrite Hc.
Qed.

Lemma length_trimStart (s : string) :
  (String.length (trimStart s) <= String.length s)%nat.
Proof.
  induction s as [|c s IH]; simpl; [lia|].
  destruct (isWhiteSpace c); simpl; lia.
Qed.

Lemma length_trimEnd (s : string) :
  (String.length (trimEnd s) <= String.length s)%nat.
Proof.
  induction s as [|c s IH]; simpl; [lia|].
  destruct (trimEnd s); [destruct (isWhiteSpace c)|]; simpl in *; lia.
Qed.

Lemma length_trim (s : string) :
  (String.length (trim s) <= String.length s)%nat.
Proof.
  unfold trim. pose proof (length_trimEnd (trimStart s)).
  pose proof (length_trimStart s). lia.
Qed.

Lemma allClass_weaken (p q : ascii -> bool) (s : string) :
  (forall c, p c = true -> q c = true) ->
  allClass p s = true -> allClass q s = true.
Proof.
  intros H. induction s as [|c s IH]; simpl; [auto|].
  rewrite !andb_true_iff. intros [Hc Hs]. auto.
Qed.

Lemma allClass_append (p : ascii -> bool) (a b : string) :
  allClass p (a ++ b) = allClass p a && allClass p b.
Proof.
  induction a as [|c a IH]; simpl; [reflexivity|].
  now rewrite IH, andb_assoc.
Qed.

(** *** Lower case *)

Lemma code_lowerChar (c : ascii) :
  (code (lowerChar c) = code c \/
   (code (lowerChar c) = code c + 32 /\
    ((65 <= code c <= 90) \/ (192 <= code c <= 222 /\ code c <> 215))))%N.
Proof.
  unfold lowerChar.
  destruct (_ || _) eqn:E; [right | now left].
  assert (R : ((65 <= code c <= 90) \/
               (192 <= code c <= 222 /\ code c <> 215))%N).
  { apply orb_true_iff in E as [E | E].
    - apply andb_true_iff in E as [E1 E2]. apply N.leb_le in E1, E2. lia.
    - apply andb_true_iff in E as [E E3]. apply andb_true_iff in E as [E1 E2].
      apply N.leb_le in E1, E2. apply negb_true_iff, N.eqb_neq in E3. lia. }
  split; [|exact R]. unfold code at 1. apply N_ascii_embedding. lia.
Qed.

Lemma isWhiteSpace_lowerChar (c : ascii) :
  isWhiteSpace (lowerChar c) = isWhiteSpace c.
Proof.
  unfold isWhiteSpace.
  destruct (code_lowerChar c) as [-> | [-> R]]; [reflexivity|].
  transitivity false;
    [|symmetry];
    rewrite !orb_false_iff, andb_false_iff, !N.leb_gt, !N.eqb_neq; lia.
Qed.

Lemma isAt_lowerChar (c : ascii) : isAt (lowerChar c) = isAt c.
Proof.
  unfold isAt.
  destruct (code_lowerChar c) as [-> | [-> R]]; [reflexivity|].
  transitivity false; [|symmetry]; rewrite N.eqb_neq; lia.
Qed.

Lemma isDot_lowerChar (c : ascii) : isDot (lowerChar c) = isDot c.
Proof.
  unfold isDot.
  destruct (code_lowerChar c) as [-> | [-> R]]; [reflexivity|].
  transitivity false; [|symmetry]; rewrite N.eqb_neq; lia.
Qed.

Lemma notSpaceAt_lowerChar (c : ascii) :
  notSpaceAt (lowerChar c) = notSpaceAt c.
Proof.
  unfold notSpaceAt. now rewrite isWhiteSpace_lowerChar, isAt_lowerChar.
Qed.

Lemma lowerChar_idempotent (c : ascii) : lowerChar (lowerChar c) = lowerChar c.
Proof.
  destruct (code_lowerChar c) as [E | [E R]].
  - unfold lowerChar at 1. rewrite E. fold (lowerChar c).
    unfold lowerChar at 2. unfold lowerChar.
    destruct (_ || _) eqn:E1; [|reflexivity].
    revert E. unfold lowerChar. rewrite E1. unfold code at 1.
    rewrite N_ascii_embedding by (pose proof (N_ascii_bounded c);
      apply orb_true_iff in E1 as [E1 | E1];
      repeat (apply andb_true_iff in E1 as [E1 ?]);
      repeat match goal with H : (_ <=? _)%N = true |- _ =>
        apply N.leb_le in H end; unfold code in *; lia).
    fold (code c). lia.
  - unfold lowerChar at 1. rewrite E.
    replace (_ || _) with false; [reflexivity|].
    symmetry. rewrite orb_false_iff, !andb_false_iff, !N.leb_gt. lia.
Qed.

Lemma toLowerCase_idempotent (s : string) :
  toLowerCase (toLowerCase s) = toLowerCase s.
Proof.
  unfold toLowerCase. induction s as [|c s IH]; simpl; [reflexivity|].
  now rewrite lowerChar_idempotent, IH.
Qed.

Lemma trimStart_toLowerCase (s : string) :
  trimStart (toLowerCase s) = toLowerCase (trimStart s).
Proof.
  unfold toLowerCase. induction s as [|c s IH]; simpl; [reflexivity|].
  rewrite isWhiteSpace_lowerChar. destruct (isWhiteSpace c); auto.
Qed.

Lemma trimEnd_toLowerCase (s : string) :
  trimEnd (toLowerCase s) = toLowerCase (trimEnd s).
Proof.
  unfold toLowerCase. induction s as [|c s IH]; [reflexivity|].
  cbn [mapString trimEnd]. rewrite IH, isWhiteSpace_lowerChar.
  destruct (trimEnd s); [destruct (isWhiteSpace c)|]; reflexivity.
Qed.

(** Trimming and lower-casing commute. *)
Lemma trim_toLowerCase (s : string) :
  trim (toLowerCase s) = toLowerCase (trim s).
Proof. unfold trim. now rewrite trimStart_toLowerCase, trimEnd_toLowerCase. Qed.

End TextLemmas.

(** ** The languages of the phone and address patterns *)

Section PatternShapes.
Import Text ProfileService AuthService ServiceProps.

Lemma matches_seq (r1 r2 : regex) (s : string) :
  matches (Seq r1 r2) s <->
  exists s1 s2, s = s1 ++ s2 /\ matches r1 s1 /\ matches r2 s2.
Proof.
  split.
  - intros H. inversion H; subst. eauto.
  - intros (s1 & s2 & -> & H1 & H2). now constructor.
Qed.

Lemma matches_class (p : ascii -> bool) (s : string) :
  matches (Class p) s <-> exists c, s = String c "" /\ p c = true.
Proof.
  split.
  - intros H. inversion H; subst. eauto.
  - intros (c & -> & H). now constructor.
Qed.

Lemma matches_opt_class (p : ascii -> bool) (s : string) :
  matches (Opt (Class p)) s <->
  s = "" \/ exists c, s = String c "" /\ p c = true.
Proof.
  unfold Opt. split.
  - intros H. inversion H as [| | |? ? ? Hc|? ? ? He| |]; subst.
    + right. now apply matches_class.
    + left. now inversion He.
  - intros [-> | H]; [apply MAltR; constructor | apply MAltL].
    now apply matches_class.
Qed.

Lemma matches_star_class_gen (r : regex) (s : string) :
  matches r s -> forall p, r = Star (Class p) -> allClass p s = true.
Proof.
  induction 1 as [| | | | | |r0 s1 s2 H1 _ H2 IH2]; intros q E;
    try discriminate; [reflexivity|].
  injection E as ->. rewrite allClass_append, (IH2 q eq_refl), andb_true_r.
  inversion H1; subst. simpl. now rewrite andb_true_r.
Qed.

Lemma matches_star_class (p : ascii -> bool) (s : string) :
  matches (Star (Class p)) s <-> allClass p s = true.
Proof.
  split; [intros H; now apply (matches_star_class_gen _ _ H)|].
  induction s as [|c s IH]; simpl; [constructor|].
  rewrite andb_true_iff. intros [Hc Hs].
  change (String c s) with (String c "" ++ s).
  constructor; [now constructor | auto].
Qed.

Lemma matches_plus_class (p : ascii -> bool) (s : string) :
  matches (Plus (Class p)) s <-> s <> "" /\ allClass p s = true.
Proof.
  unfold Plus. rewrite matches_seq. split.
  - intros (s1 & s2 & -> & H1 & H2).
    apply matches_class in H1 as (c & -> & Hc).
    apply matches_star_class in H2. simpl. rewrite Hc, H2.
    split; [discriminate | reflexivity].
  - intros [Hne H]. destruct s as [|c s]; [contradiction|]. simpl in H.
    apply andb_true_iff in H as [Hc Hs].
    exists (String c ""), s. split; [reflexivity|].
    split; [now constructor | now apply matches_star_class].
Qed.

Lemma matches_upto_class (p : ascii -> bool) (n : nat) (s : string) :
  matches (UpTo n (Class p)) s <->
  allClass p s = true /\ (String.length s <= n)%nat.
Proof.
  revert s. induction n as [|n IH]; intros s; cbn [UpTo].
  - split.
    + intros H. inversion H. simpl. split; [reflexivity | lia].
    + intros [_ H]. destruct s; [constructor | simpl in H; lia].
  - unfold Opt. split.
    + intros H. inversion H as [| | |? ? ? Hs|? ? ? He| |]; subst.
      * apply matches_seq in Hs as (s1 & s2 & -> & H1 & H2).
        apply matches_class in H1 as (c & -> & Hc).
        apply IH in H2 as [H2 Hl]. simpl. rewrite Hc, H2. split; [reflexivity | lia].
      * inversion He. simpl. split; [reflexivity | lia].
    + intros [Ha Hl]. destruct s as [|c s]; [apply MAltR; constructor|].
      simpl in Ha, Hl. apply andb_true_iff in Ha as [Hc Hs].
      apply MAltL. change (String c s) with (String c "" ++ s).
      constructor; [now constructor|]. apply IH. split; [exact Hs | lia].
Qed.

Lemma isPlus_eq (c : ascii) : isPlus c = true -> c = "+"%char.
Proof.
  unfold isPlus, code. intros H. apply N.eqb_eq in H.
  rewrite <- (ascii_N_embedding c), H. reflexivity.
Qed.

Lemma isAt_eq (c : ascii) : isAt c = true -> c = "@"%char.
Proof.
  unfold isAt, code. intros H. apply N.eqb_eq in H.
  rewrite <- (ascii_N_embedding c), H. reflexivity.
Qed.

(** The phone pattern accepts exactly the texts of the phone shape. *)
Lemma test_phonePattern (p : string) :
  test phonePattern p = true <-> phoneShape p.
Proof.
  rewrite test_matches. unfold phonePattern, phoneShape.
  rewrite matches_seq. split.
  - intros (s1 & s2 & -> & H1 & H2).
    apply matches_seq in H2 as (d & rest & -> & Hd & Hr).
    apply matches_class in Hd as (c & -> & Hc).
    apply matches_upto_class in Hr as [Hr Hl].
    exists s1, c, rest. repeat split; auto.
    apply matches_opt_class in H1 as [-> | (c' & -> & Hc')]; [now left|].
    right. apply isPlus_eq in Hc'. now subst.
  - intros (sign & d & rest & -> & Hs & Hd & Hr & Hl).
    exists sign, (String d rest). split; [reflexivity|]. split.
    + apply matches_opt_class. destruct Hs as [-> | ->]; [now left|].
      right. exists "+"%char. auto.
    + apply matches_seq. exists (String d ""), rest.
      split; [reflexivity|]. split; [now constructor|].
      now apply matches_upto_class.
Qed.

(** The address pattern accepts exactly the texts of the address shape. *)
Lemma test_emailPattern (s : string) :
  test emailPattern s = true <-> emailShape s.
Proof.
  rewrite test_matches. unfold emailPattern, emailShape.
  rewrite matches_seq. split.
  - intros (l & s2 & -> & Hl & H2).
    apply matches_seq in H2 as (a & s3 & -> & Ha & H3).
    apply matches_seq in H3 as (x & s4 & -> & Hx & H4).
    apply matches_seq in H4 as (d & y & -> & Hd & Hy).
    apply matches_class in Ha as (ca & -> & Hca). apply isAt_eq in Hca. subst ca.
    apply matches_class in Hd as (cd & -> & Hcd). apply isDot_eq in Hcd. subst cd.
    apply matches_plus_class in Hl as [Hl1 Hl2].
    apply matches_plus_class in Hx as [Hx1 Hx2].
    apply matches_plus_class in Hy as [Hy1 Hy2].
    exists l, x, y. repeat split; auto.
  - intros (l & x & y & -> & Hl & Hx & Hy & Al & Ax & Ay).
    exists l, (String "@" (x ++ String "." y)). split; [reflexivity|].
    split; [now apply matches_plus_class|].
    apply matches_seq. exists "@", (x ++ String "." y).
    split; [reflexivity|]. split; [now constructor|].
    apply matches_seq. exists x, (String "." y).
    split; [reflexivity|]. split; [now apply matches_plus_class|].
    apply matches_seq. exists ".", y.
    split; [reflexivity|]. split; [now constructor|].
    now apply matches_plus_class.
Qed.

(** *** Patterns under a change of characters *)

Lemma deriv_invariant (f : ascii -> ascii) (r : regex) (c : ascii) :
  classesInvariant f r -> deriv (f c) r = deriv c r.
Proof.
  induction r as [| |p|r1 IH1 r2 IH2|r1 IH1 r2 IH2|r IH]; simpl;
    try reflexivity.
  - intros H. now rewrite H.
  - intros [H1 H2]. now rewrite IH1, IH2.
  - intros [H1 H2]. now rewrite IH1, IH2.
  - intros H. now rewrite IH.
Qed.

Lemma classesInvariant_deriv (f : ascii -> ascii) (r : regex) (c : ascii) :
  classesInvariant f r -> classesInvariant f (deriv c r).
Proof.
  induction r as [| |p|r1 IH1 r2 IH2|r1 IH1 r2 IH2|r IH]; simpl; auto.
  - intros _. now destruct (p c).
  - intros [H1 H2]. destruct (nullable r1); simpl; auto.
  - intros [H1 H2]. auto.
Qed.

(** A pattern whose classes do not tell [c] from [f c] does not tell a
    text from its image. *)
Lemma test_mapString (f : ascii -> ascii) (r : regex) (s : string) :
  classesInvariant f r -> test r (mapString f s) = test r s.
Proof.
  revert r. induction s as [|c s IH]; intros r H; simpl; [reflexivity|].
  rewrite (deriv_invariant f r c H). apply IH.
  now apply classesInvariant_deriv.
Qed.

Lemma test_emailPattern_toLowerCase (s : string) :
  test emailPattern (toLowerCase s) = test emailPattern s.
Proof.
  apply test_mapString. simpl.
  repeat split; intros c;
    auto using notSpaceAt_lowerChar, isAt_lowerChar, isDot_lowerChar.
Qed.

End PatternShapes.

(** ** The profile service and the completion dialog *)

Section ProfileValidation.
Import Text ProfileService ServiceProps.

Lemma nonZeroDigit_isDigit (c : ascii) :
  isNonZeroDigit c = true -> isDigit c = true.
Proof.
  unfold isNonZeroDigit, isDigit. rewrite !andb_true_iff, !N.leb_le. lia.
Qed.

Lemma isDigit_notSpace (c : ascii) : isDigit c = true -> notSpace c = true.
Proof.
  intros H. unfold notSpace. now rewrite (isDigit_not_space _ H).
Qed.

(** A text of the phone shape has no white space and at most seventeen
    characters. *)
Lemma phoneShape_facts (p : string) :
  phoneShape p ->
  allClass notSpace p = true /\ (1 <= String.length p <= 17)%nat.
Proof.
  intros (sign & d & rest & -> & Hs & Hd & Hr & Hl).
  rewrite allClass_append, length_append. cbn [allClass String.length].
  rewrite (isDigit_notSpace d (nonZeroDigit_isDigit d Hd)).
  rewrite (allClass_weaken isDigit notSpace rest isDigit_notSpace Hr).
  destruct Hs as [-> | ->]; simpl; split; (reflexivity || lia).
Qed.

Lemma whenPresent_false (o : option string) (f : string -> bool) :
  whenPresent o f = false ->
  match o with
  | None => True
  | Some s => s = "" \/ f s = false
  end.
Proof.
  destruct o as [s|]; [|trivial]. unfold whenPresent.
  intros H. apply andb_false_iff in H as [H | H]; [left | now right].
  apply negb_false_iff in H. now apply isEmpty_true.
Qed.

Lemma trim_empty : trim "" = "".
Proof. reflexivity. Qed.

Lemma storedName_trim (o : option string) :
  whenPresent o (fun n => (String.length (trim n) <? 2)%nat) = false ->
  storedName (option_map trim o).
Proof.
  intros H. apply whenPresent_false in H. destruct o as [s|]; [|exact I].
  cbn [option_map storedName]. destruct H as [-> | H]; [now left|].
  right. apply Nat.ltb_ge in H. split; [exact H | apply trim_idempotent].
Qed.

(** What passes the validation, once trimmed. *)
Lemma validated_updates (updates : ProfileUpdates) :
  validateProfileData updates = None ->
  storedName (u_name (sanitizeUpdates updates)) /\
  storedName (u_business_name (sanitizeUpdates updates)) /\
  storedPhone (u_phone (sanitizeUpdates updates)) /\
  u_phone (sanitizeUpdates updates) = u_phone updates.
Proof.
  intros Hv. unfold validateProfileData in Hv.
  destruct (whenPresent (u_name updates) _) eqn:E1; [discriminate|].
  destruct (whenPresent (u_phone updates) _) eqn:E2; [discriminate|].
  destruct (whenPresent (u_business_name updates) _) eqn:E3; [discriminate|].
  cbn [sanitizeUpdates u_name u_business_name u_phone].
  split; [now apply storedName_trim|].
  split; [now apply storedName_trim|].
  apply whenPresent_false in E2.
  destruct (u_phone updates) as [p|]; [|split; [exact I | reflexivity]].
  cbn [option_map storedPhone].
  destruct E2 as [-> | E2]; [split; [now left | reflexivity]|].
  assert (Hp : p = "" \/ phoneShape p).
  { destruct p as [|c p]; [now left | right].
    cbn [String.length Nat.ltb Nat.leb andb] in E2.
    apply negb_false_iff in E2. now apply test_phonePattern. }
  destruct Hp as [-> | Hp]; [split; [now left | reflexivity]|].
  destruct (phoneShape_facts p Hp) as [Hns _].
  rewrite (trim_noSpace p Hns). split; [now right | reflexivity].
Qed.

(** X7. [updateProfileWithValidation] hands to the store only validated
    and trimmed updates: the name and the business name are absent, empty,
    or of two characters at least with no white space at the ends; the
    phone number is absent, empty, or of the accepted shape, and reaches the
    store as it was given.  When the validation fails the store is not
    consulted: the result is the validation error, whatever the store
    would say. *)
Theorem X7_only_validated_updates_reach_the_store
    (updateProfile : string -> ProfileUpdates -> ProfileResult)
    (userId : string) (updates : ProfileUpdates) :
  (validateProfileData updates = None ->
   updateProfileWithValidation updateProfile userId updates =
     updateProfile userId (sanitizeUpdates updates) /\
   storedName (u_name (sanitizeUpdates updates)) /\
   storedName (u_business_name (sanitizeUpdates updates)) /\
   storedPhone (u_phone (sanitizeUpdates updates)) /\
   u_phone (sanitizeUpdates updates) = u_phone updates) /\
  (forall e, validateProfileData updates = Some e ->
   updateProfileWithValidation updateProfile userId updates =
     {| profile := None; error := Some e |}).
Proof.
  split.
  - intros Hv. unfold updateProfileWithValidation. rewrite Hv.
    split; [reflexivity | now apply validated_updates].
  - intros e He. unfold updateProfileWithValidation. now rewrite He.
Qed.

(** X8. Validation comes before trimming: a phone number with white space
    at either end is rejected, and the store is not consulted. *)
Theorem X8_phone_with_surrounding_space_is_rejected
    (updateProfile : string -> ProfileUpdates -> ProfileResult)
    (userId : string) (updates : ProfileUpdates) (p : string) :
  u_phone updates = Some p -> trim p <> p ->
  exists e,
    validateProfileData updates = Some e /\
    updateProfileWithValidation updateProfile userId updates =
      {| profile := None; error := Some e |}.
Proof.
  intros Hp Ht.
  destruct (validateProfileData updates) as [e|] eqn:Hv.
  - exists e. split; [reflexivity|].
    unfold updateProfileWithValidation. now rewrite Hv.
  - exfalso. unfold validateProfileData in Hv.
    destruct (whenPresent (u_name updates) _); [discriminate|].
    destruct (whenPresent (u_phone updates) _) eqn:E2; [discriminate|].
    apply whenPresent_false in E2. rewrite Hp in E2.
    destruct E2 as [-> | E2]; [now apply Ht|].
    destruct p as [|c p]; [now apply Ht|].
    cbn [String.length Nat.ltb Nat.leb andb] in E2.
    apply negb_false_iff, test_phonePattern, phoneShape_facts in E2.
    apply Ht, trim_noSpace, E2.
Qed.

(** X9. A profile is complete exactly when it has a business name and a
    phone number that both hold a character other than white space. *)
Theorem X9_profile_complete_iff (p : UserProfile) :
  isProfileComplete p = true <->
  exists b ph,
    business_name p = Some b /\ phone p = Some ph /\
    hasVisible b = true /\ hasVisible ph = true.
Proof.
  unfold isProfileComplete. split.
  - destruct (business_name p) as [b|]; [|discriminate].
    destruct (phone p) as [ph|];
      [|rewrite andb_false_r; discriminate].
    rewrite !isEmpty_trim, !negb_involutive, andb_true_iff.
    intros [Hb Hp]. exists b, ph. auto.
  - intros (b & ph & -> & -> & Hb & Hp).
    now rewrite !isEmpty_trim, Hb, Hp.
Qed.

End ProfileValidation.

Section ProfileDialog.
Import Text ProfileService ProfileCompletionModal ServiceProps.


End ProfileDialog.

(** ** The authentication service and dialog *)

Section Authentication.
Import Text AuthService ServiceProps.

Lemma getErrorMessage_not_empty (error : AuthError) :
  isEmpty (getErrorMessage error) = false.
Proof.
  unfold getErrorMessage.
  repeat match goal with
         | |- context [if (?a =? ?b)%string then _ else _] =>
             destruct (a =? b)%string; [reflexivity|]
         end.
  destruct (isEmpty error) eqn:E; [reflexivity | exact E].
Qed.

(** X11. [validateEmail] accepts an address exactly when, with the white
    space at its ends removed, it is a local part, an at sign and a domain
    with a dot inside, none of the three parts empty or holding white
    space or an at sign; upper and lower case make no difference, and the
    sanitized address, the one sent to the backend, is accepted exactly
    when the address is. *)
Theorem X11_validateEmail_shape (email : string) :
  (validateEmail email = true <-> emailShape (trim email)) /\
  validateEmail (sanitizeInput email) = validateEmail email /\
  validateEmail (toLowerCase email) = validateEmail email.
Proof.
  unfold validateEmail, sanitizeInput.
  rewrite !test_emailPattern_toLowerCase.
  split; [apply test_emailPattern|]. split.
  - now rewrite trim_toLowerCase, test_emailPattern_toLowerCase, trim_idempotent.
  - now rewrite trim_toLowerCase, test_emailPattern_toLowerCase.
Qed.

Section Backend.

Variables User Session Store : Type.
Variable signInWithPassword :
  Store -> string -> string -> Store * reply (option User * option Session).
Variable authSignUp :
  Store -> string -> string -> string -> Store * reply (option User).
Variable createProfile : Store -> User -> string -> Store.
Variable resetPasswordForEmail : Store -> string -> Store * reply unit.

Local Abbreviation signIn :=
  (AuthService.signIn User Session Store signInWithPassword).
Local Abbreviation signUp :=
  (AuthService.signUp User Store authSignUp createProfile).
Local Abbreviation resetPassword :=
  (AuthService.resetPassword Store resetPasswordForEmail).

(** X12. Every error that [signIn], [signUp] or [resetPassword] returns
    carries a message that is not empty and a code, whatever the backend
    answers; and a result with an error never carries a user or a
    session. *)
Theorem X12_service_errors_are_well_formed
    (store : Store) (email password name : string) :
  (forall e, signin_error (snd (signIn store email password)) = Some e ->
     wellFormed e /\
     signin_user (snd (signIn store email password)) = None /\
     signin_session (snd (signIn store email password)) = None) /\
  (forall e, signup_error (snd (signUp store email password name)) = Some e ->
     wellFormed e /\
     signup_user (snd (signUp store email password name)) = None) /\
  (forall e, snd (resetPassword store email) = Some e -> wellFormed e).
Proof.
  pose proof getErrorMessage_not_empty as G.
  assert (GM : forall err, getErrorMessage err <> "")
    by (intros err; apply isEmpty_false, G).
  unfold wellFormed.
  split; [|split].
  - unfold AuthService.signIn.
    destruct (negb (validateEmail email));
      [intros e [= <-]; repeat split; discriminate|].
    destruct (String.length password <? 6)%nat;
      [intros e [= <-]; repeat split; discriminate|].
    destruct (signInWithPassword store (sanitizeInput email) password)
      as [store' [|[u s] [err|]]]; cbn;
      intros e E; try discriminate E; injection E as <-;
      repeat split; try discriminate; cbn; auto.
  - unfold AuthService.signUp.
    destruct (negb (validateEmail email));
      [intros e [= <-]; repeat split; discriminate|].
    destruct (negb (validatePassword password));
      [intros e [= <-]; repeat split; discriminate|].
    destruct (String.length (trim name) <? 2)%nat;
      [intros e [= <-]; repeat split; discriminate|].
    destruct (authSignUp store (sanitizeInput email) password (trim name))
      as [store' [|u [err|]]]; cbn;
      intros e E; try discriminate E; injection E as <-;
      repeat split; try discriminate; cbn; auto.
  - unfold AuthService.resetPassword.
    destruct (negb (validateEmail email));
      [intros e [= <-]; repeat split; discriminate|].
    destruct (resetPasswordForEmail store (sanitizeInput email))
      as [store' [|u [err|]]]; cbn;
      intros e E; try discriminate E; injection E as <-;
      repeat split; try discriminate; cbn; auto.
Qed.

Lemma validatePassword_length (password : string) :
  validatePassword password = true -> (8 <= String.length password)%nat.
Proof.
  unfold validatePassword. rewrite !andb_true_iff.
  intros [[[[H _] _] _] _]. now apply Nat.leb_le.
Qed.

(** X13. Credentials that pass the local checks of [signUp] pass those of
    [signIn]: with them each function goes to the backend, with the same
    sanitized address and the same password, and hands back what the
    backend gives when it reports no error ([signUp] then creates the
    profile of the new user under the trimmed name).  Credentials that fail
    a local check leave the store as it was. *)
Theorem X13_sign_up_then_sign_in
    (store : Store) (email password name : string) :
  (validateEmail email = true -> validatePassword password = true ->
   (2 <= String.length (trim name))%nat ->
   (forall store' u s,
      signInWithPassword store (sanitizeInput email) password =
        (store', Resolves (u, s) None) ->
      signIn store email password =
        (store', {| signin_user := u; signin_session := s;
                    signin_error := None |})) /\
   (forall store' u,
      authSignUp store (sanitizeInput email) password (trim name) =
        (store', Resolves (Some u) None) ->
      signUp store email password name =
        (createProfile store' u (trim name),
         {| signup_user := Some u; signup_error := None |}))) /\
  (validateEmail email = false \/ (String.length password < 6)%nat ->
   fst (signIn store email password) = store) /\
  (validateEmail email = false \/ validatePassword password = false \/
   (String.length (trim name) < 2)%nat ->
   fst (signUp store email password name) = store).
Proof.
  split; [|split].
  - intros He Hp Hn. pose proof (validatePassword_length _ Hp) as Hl.
    split.
    + intros store' u s E. unfold AuthService.signIn.
      rewrite He. cbn [negb].
      replace (String.length password <? 6)%nat with false
        by (symmetry; apply Nat.ltb_ge; lia).
      now rewrite E.
    + intros store' u E. unfold AuthService.signUp.
      rewrite He, Hp. cbn [negb].
      replace (String.length (trim name) <? 2)%nat with false
        by (symmetry; apply Nat.ltb_ge; lia).
      now rewrite E.
  - unfold AuthService.signIn. intros [H | H].
    + now rewrite H.
    + destruct (negb (validateEmail email)); [reflexivity|].
      apply Nat.ltb_lt in H. now rewrite H.
  - unfold AuthService.signUp. intros [H | [H | H]].
    + now rewrite H.
    + destruct (negb (validateEmail email)); [reflexivity|]. now rewrite H.
    + destruct (negb (validateEmail email)); [reflexivity|].
      destruct (negb (validatePassword password)); [reflexivity|].
      apply Nat.ltb_lt in H. now rewrite H.
Qed.

End Backend.

End Authentication.

Section AuthenticationDialog.
Import Text AuthService AuthModal ServiceProps.

Variables User Session Store : Type.
Variable signInWithPassword :
  Store -> string -> string -> Store * reply (option User * option Session).
Variable authSignUp :
  Store -> string -> string -> string -> Store * reply (option User).
Variable createProfile : Store -> User -> string -> Store.

Local Abbreviation handleSubmit :=
  (AuthModal.handleSubmit User Session Store signInWithPassword authSignUp
     createProfile).

(** X14. The authentication dialog, after [handleSubmit] has run to its
    end with no other event in between: it is no longer loading; it does
    not show an error and a success message together; [onLogin] is called
    only in login mode, with the success message and no error; in sign-up
    mode two different passwords give the error about them and leave the
    store untouched; and the form is emptied only by a successful sign-up,
    which keeps the address and turns to login mode. *)
Theorem X14_authentication_dialog_submit (store : Store) (st : state) :
  let r := handleSubmit store st in
  let st' := snd (fst r) in
  isLoading st' = false /\
  (errorText st' = None \/ successMessage st' = None) /\
  (snd r = true ->
   isLoginMode st = true /\ errorText st' = None /\
   successMessage st' = Some "Successfully signed in!") /\
  (isLoginMode st = false ->
   (password (formData st) =? confirmPassword (formData st))%string = false ->
   fst (fst r) = store /\ errorText st' = Some "Passwords do not match") /\
  (formData st' = formData st \/
   (isLoginMode st = false /\ isLoginMode st' = true /\
    errorText st' = None /\
    formData st' =
      {| name := ""; email := email (formData st); password := "";
         confirmPassword := "" |})).
Proof.
  intros r st'. unfold st', r, AuthModal.handleSubmit.
  destruct (isLoginMode st) eqn:Em.
  - destruct (signIn User Session Store signInWithPassword store
                (email (formData st)) (password (formData st))) as [store' res].
    destruct (signin_error res) as [e|].
    + cbn. repeat split; auto; discriminate.
    + destruct (signin_user res), (signin_session res); cbn;
        repeat split; auto; discriminate.
  - destruct (password (formData st) =? confirmPassword (formData st))%string
      eqn:Ep; cbn [negb].
    + destruct (signUp User Store authSignUp createProfile store
                  (email (formData st)) (password (formData st))
                  (name (formData st))) as [store' res].
      destruct (signup_error res) as [e|].
      * cbn. repeat split; auto; discriminate.
      * destruct (signup_user res); cbn.
        -- repeat split; auto; discriminate.
        -- repeat split; auto; discriminate.
    + cbn. repeat split; auto; discriminate.
Qed.

Variable resetPasswordForEmail : Store -> string -> Store * reply unit.

Local Abbreviation handleForgotPassword :=
  (AuthModal.handleForgotPassword Store resetPasswordForEmail).

(** X15. The request for a password reset, run to its end with no other
    event in between: an address that [validateEmail] rejects (the empty
    one among them) never reaches the backend and gives an error, and the
    success message shown before stays on the screen beside it; when no
    error is shown, the backend was asked once, with the sanitized address,
    and resolved with no error, and the success message is the one of the
    reset.  The form and the mode are never changed. *)
Theorem X15_forgot_password (store : Store) (st : state) :
  let r := handleForgotPassword store st in
  (validateEmail (email (formData st)) = false ->
   fst r = store /\ errorText (snd r) <> None /\
   successMessage (snd r) = successMessage st) /\
  (errorText (snd r) = None ->
   successMessage (snd r) =
     Some "Password reset email sent! Check your inbox." /\
   isLoading (snd r) = false /\
   exists d,
     resetPasswordForEmail store (sanitizeInput (email (formData st))) =
       (fst r, Resolves d None)) /\
  formData (snd r) = formData st /\ isLoginMode (snd r) = isLoginMode st.
Proof.
  intros r. unfold r, AuthModal.handleForgotPassword, AuthService.resetPassword.
  destruct (isEmpty (email (formData st))) eqn:Ee.
  - cbn. repeat split; auto; discriminate.
  - destruct (validateEmail (email (formData st))) eqn:Ev; cbn [negb].
    + destruct (resetPasswordForEmail store
                  (sanitizeInput (email (formData st))))
        as [store' [|d [err|]]]; cbn;
        repeat split; auto; try discriminate.
      now exists d.
    + cbn. repeat split; auto; discriminate.
Qed.

End AuthenticationDialog.

(** ** The extra theorems at concrete inputs *)

Section PaymentWitnesses.

Lemma X2_witness :
  reachable (run initial [setBaseAmountText "0.5"]) /\
  baseAmount (handleBaseAmountBlur (run initial [setBaseAmountText "0.5"]))
  = of_Z 1.
Proof.
  assert (R : reachable (run initial [setBaseAmountText "0.5"]))
    by (exact (reachable_step _ _ reachable_initial)).
  split; [exact R|].
  exact (proj2 (X2_base_blur_keeps_or_resets _ R) eq_refl).
Defined.

Lemma X3_witness :
  reachable (run initial [setCustomTipText "7.5"]) /\
  derivedAmounts (handleCustomTipBlur (run initial [setCustomTipText "7.5"]))
  = derivedAmounts (run initial [setCustomTipText "7.5"]).
Proof.
  assert (R : reachable (run initial [setCustomTipText "7.5"]))
    by (exact (reachable_step _ _ reachable_initial)).
  split; [exact R|].
  exact (proj1 (X3_custom_tip_blur_keeps_amounts _ R)).
Defined.

Lemma X4_witness :
  (isBaseOp (setBaseAmountText "20") = true /\
   isBaseOp (selectPresetTip (of_Z 15)) = false) /\
  step (step initial (setBaseAmountText "20")) (selectPresetTip (of_Z 15)) =
  step (step initial (selectPresetTip (of_Z 15))) (setBaseAmountText "20").
Proof.
  split; [split; reflexivity|].
  exact (X4_base_and_tip_operations_commute initial (setBaseAmountText "20")
           (selectPresetTip (of_Z 15)) eq_refl eq_refl).
Defined.


Lemma X6_witness :
  (test amountPattern (removeAll nonNumeric "0.50") = true /\
   lt (parseFloat (removeAll nonNumeric "0.50")) (of_Z 1) = true) /\
  customTip (handleCustomTipChange (run initial [setCustomTipText "5.00"])
               "0.50")
  = customTip (run initial [setCustomTipText "5.00"]).
Proof.
  split; [split; reflexivity|].
  exact (proj1 (proj2
    (X6_tip_text_below_minimum_is_only_shown
       (run initial [setCustomTipText "5.00"]) "0.50" eq_refl eq_refl))).
Defined.

End PaymentWitnesses.

Section ServiceWitnesses.
Import Text ProfileService ServiceProps.

Lemma X7_witness :
  validateProfileData (onlyPhone "+15551234567") = None /\
  storedPhone (u_phone (sanitizeUpdates (onlyPhone "+15551234567"))).
Proof.
  split; [reflexivity|].
  exact (proj1 (proj2 (proj2 (proj2
    (proj1 (X7_only_validated_updates_reach_the_store accepting "u1"
              (onlyPhone "+15551234567")) eq_refl))))).
Defined.

Lemma X8_witness :
  (u_phone (onlyPhone " 5551234567") = Some " 5551234567" /\
   trim " 5551234567" <> " 5551234567") /\
  exists e,
    validateProfileData (onlyPhone " 5551234567") = Some e /\
    updateProfileWithValidation accepting "u1" (onlyPhone " 5551234567") =
      {| profile := None; error := Some e |}.
Proof.
  assert (H : trim " 5551234567" <> " 5551234567") by discriminate.
  split; [split; [reflexivity | exact H]|].
  exact (X8_phone_with_surrounding_space_is_rejected accepting "u1"
           (onlyPhone " 5551234567") " 5551234567" eq_refl H).
Defined.

End ServiceWitnesses.

Section ProfileWitnesses.
Import Text ProfileService ProfileCompletionModal ServiceProps.

Lemma X9_witness :
  isProfileComplete sampleProfile = true /\
  exists b ph,
    business_name sampleProfile = Some b /\ phone sampleProfile = Some ph /\
    hasVisible b = true /\ hasVisible ph = true.
Proof.
  split; [reflexivity|].
  exact (proj1 (X9_profile_complete_iff sampleProfile) eq_refl).
Defined.


End ProfileWitnesses.

Section AuthenticationWitnesses.
Import Text AuthService AuthModal ServiceProps.

Lemma X11_witness :
  validateEmail " Ann@Example.com " = true /\
  emailShape (trim " Ann@Example.com ").
Proof.
  split; [reflexivity|].
  exact (proj1 (proj1 (X11_validateEmail_shape " Ann@Example.com ")) eq_refl).
Defined.

Lemma X12_witness :
  exists e,
    signin_error
      (snd (signIn unit unit nat refusingSignIn 0%nat "ann@example.com" "secret1"))
    = Some e /\
    wellFormed e.
Proof.
  refine (ex_intro _ _ (conj eq_refl _)).
  exact (proj1 (proj1
    (X12_service_errors_are_well_formed unit unit nat refusingSignIn
       grantingSignUp countingCreateProfile failingReset 0%nat
       "ann@example.com" "secret1" "Ann") _ eq_refl)).
Defined.

Lemma X13_witness :
  (validateEmail " Ann@Example.com" = true /\
   validatePassword "Secret#1x" = true /\
   (2 <= String.length (trim "Ann "))%nat) /\
  signUp unit nat grantingSignUp countingCreateProfile 0%nat
    " Ann@Example.com" "Secret#1x" "Ann "
  = (2%nat, {| signup_user := Some tt; signup_error := None |}).
Proof.
  assert (H : (2 <= String.length (trim "Ann "))%nat)
    by (vm_compute; lia).
  split; [split; [reflexivity | split; [reflexivity | exact H]]|].
  exact (proj2 (proj1
    (X13_sign_up_then_sign_in unit unit nat grantingSignIn grantingSignUp
       countingCreateProfile 0%nat " Ann@Example.com" "Secret#1x" "Ann ")
    eq_refl eq_refl H) 1%nat tt eq_refl).
Defined.

Lemma X14_witness :
  snd (handleSubmit unit unit nat grantingSignIn grantingSignUp
         countingCreateProfile 0%nat
         {| isLoginMode := true;
            formData := {| name := ""; email := "ann@example.com";
                           password := "Secret#1x"; confirmPassword := "" |};
            isLoading := false; errorText := None; successMessage := None |})
  = true /\
  successMessage
    (snd (fst (handleSubmit unit unit nat grantingSignIn grantingSignUp
                 countingCreateProfile 0%nat
                 {| isLoginMode := true;
                    formData := {| name := ""; email := "ann@example.com";
                                   password := "Secret#1x";
                                   confirmPassword := "" |};
                    isLoading := false; errorText := None;
                    successMessage := None |})))
  = Some "Successfully signed in!".
Proof.
  split; [reflexivity|].
  exact (proj2 (proj2 (proj1 (proj2 (proj2
    (X14_authentication_dialog_submit unit unit nat grantingSignIn
       grantingSignUp countingCreateProfile 0%nat
       {| isLoginMode := true;
          formData := {| name := ""; email := "ann@example.com";
                         password := "Secret#1x"; confirmPassword := "" |};
          isLoading := false; errorText := None; successMessage := None |})))
    eq_refl))).
Defined.

Lemma X15_witness :
  validateEmail
    (email {| name := ""; email := "ann@example"; password := "";
              confirmPassword := "" |}) = false /\
  fst (handleForgotPassword nat failingReset 0%nat
         {| isLoginMode := true;
            formData := {| name := ""; email := "ann@example"; password := "";
                           confirmPassword := "" |};
            isLoading := false; errorText := None;
            successMessage := Some "Account created!" |}) = 0%nat.
Proof.
  split; [reflexivity|].
  exact (proj1 (proj1
    (X15_forgot_password nat failingReset 0%nat
       {| isLoginMode := true;
          formData := {| name := ""; email := "ann@example"; password := "";
                         confirmPassword := "" |};
          isLoading := false; errorText := None;
          successMessage := Some "Account created!" |}) eq_refl)).
Defined.

End AuthenticationWitnesses.
